(** * image-download: a content-addressed image store over HTTP

  A shallow embedding of the two servers of the repository ([src/index.ts],
  which re-encodes uploads to AVIF, and its twin, which re-encodes to PNG)
  and the properties of their upload and retrieval handlers.

  - The handlers are functions on a [world]: the files of the images
    folder, the writes that were started and have not settled, and the
    record of the calls made to the image library and to the file system,
    with the rejections of promises that nothing awaits.
  - [Bun.write] carries out a short write before it returns and leaves a
    longer one in flight; a write that the file system refuses rejects a
    promise that nothing awaits, which ends the process.
  - Exceptions are values; [try_catch] is the [try]/[catch] of the source.
  - SHA-256 and the hexadecimal writing are computed, and the computation
    is compared with the wording of FIPS 180-4; the working directory, the
    base64 reading of [Buffer.from] and the image transform are fields of
    an [env]. *)

From Stdlib Require Import ZArith NArith List Lia Floats.
From Stdlib.Strings Require Import String Ascii Byte.
From stdpp Require Import base gmap strings list.

Local Open Scope string_scope.

(** String concatenation computes under [simpl] and [cbn] in this file. *)
#[local] Arguments String.append !s1 s2 : simpl nomatch.

(** Binary data ([Buffer], [Uint8Array]) is a list of bytes. *)
Abbreviation bytes := (list byte).

(** ** Bytes and machine words *)

Module Bytes.

Definition to_Z (b : byte) : Z := Z.of_N (Byte.to_N b).

(** The low eight bits of an integer, as a byte. *)
Definition of_Z (z : Z) : byte :=
  match Byte.of_N (Z.to_N (z mod 256)) with
  | Some b => b
  | None => x00
  end.

End Bytes.

(** ** SHA-256

  [crypto.createHash("sha256").update(buf).digest()] computes the SHA-256
  function of FIPS 180-4 over the bytes of [buf].  Words are 32-bit
  integers carried in [Z]; every addition wraps around at [2^32]. *)

Module SHA256.

Local Open Scope Z_scope.

Definition wrap32 (x : Z) : Z := x mod 2 ^ 32.
Definition add32 (x y : Z) : Z := wrap32 (x + y).
Definition not32 (x : Z) : Z := Z.lxor x 0xffffffff.
Definition rotr (n x : Z) : Z :=
  Z.lor (Z.shiftr x n) (wrap32 (Z.shiftl x (32 - n))).

Definition Ch (x y z : Z) : Z := Z.lxor (Z.land x y) (Z.land (not32 x) z).
Definition Maj (x y z : Z) : Z :=
  Z.lxor (Z.lxor (Z.land x y) (Z.land x z)) (Z.land y z).
Definition Sigma0 (x : Z) : Z :=
  Z.lxor (Z.lxor (rotr 2 x) (rotr 13 x)) (rotr 22 x).
Definition Sigma1 (x : Z) : Z :=
  Z.lxor (Z.lxor (rotr 6 x) (rotr 11 x)) (rotr 25 x).
Definition sigma0 (x : Z) : Z :=
  Z.lxor (Z.lxor (rotr 7 x) (rotr 18 x)) (Z.shiftr x 3).
Definition sigma1 (x : Z) : Z :=
  Z.lxor (Z.lxor (rotr 17 x) (rotr 19 x)) (Z.shiftr x 10).

(** The greatest [r] below [2 ^ bits] with [r ^ k <= n], found bit by bit. *)
Fixpoint iroot (k n : Z) (bits : nat) (r : Z) : Z :=
  match bits with
  | O => r
  | S b =>
      let c := r + 2 ^ Z.of_nat b in
      iroot k n b (if c ^ k <=? n then c else r)
  end.

(** The first 32 bits of the fractional part of the [k]-th root of [p]. *)
Definition root_fraction (k p : Z) : Z :=
  wrap32 (iroot k (p * 2 ^ (32 * k)) 44 0).

Definition is_prime (p : Z) : bool :=
  forallb (fun d => negb (p mod Z.of_nat d =? 0)) (seq 2 (Z.to_nat p - 2)).

(** The primes below 312: the first 64 of them. *)
Definition primes : list Z :=
  filter (fun p => is_prime p) (map Z.of_nat (seq 2 310)).

(** The round constants come from the cube roots of the first 64 primes,
    the initial chaining value from the square roots of the first 8. *)
Definition K : list Z := map (root_fraction 3) primes.

(** The eight working variables, also the chaining value. *)
Record state : Type := State {
  va : Z; vb : Z; vc : Z; vd : Z; ve : Z; vf : Z; vg : Z; vh : Z
}.

Definition H0 : state :=
  let r i := root_fraction 2 (nth i primes 0) in
  State (r 0%nat) (r 1%nat) (r 2%nat) (r 3%nat)
        (r 4%nat) (r 5%nat) (r 6%nat) (r 7%nat).

(** Padding: a [0x80] byte, zeros up to 56 modulo 64, then the length of
    the message in bits as a 64-bit big-endian integer. *)
Definition be_bytes (n : nat) (x : Z) : list Z :=
  map (fun i => (Z.shiftr x (8 * Z.of_nat i)) mod 256) (rev (seq 0 n)).

Definition pad (m : list Z) : list Z :=
  let len := Z.of_nat (length m) in
  m ++ [0x80] ++ repeat 0 (Z.to_nat ((55 - len) mod 64)) ++ be_bytes 8 (8 * len).

Fixpoint words_be (l : list Z) : list Z :=
  match l with
  | a :: b :: c :: d :: r =>
      (a * 2 ^ 24 + b * 2 ^ 16 + c * 2 ^ 8 + d) :: words_be r
  | _ => []
  end.

(** The message schedule, built newest word first. *)
Fixpoint extend (n : nat) (w : list Z) : list Z :=
  match n with
  | O => w
  | S n' =>
      let x := add32 (add32 (sigma1 (nth 1 w 0)) (nth 6 w 0))
                     (add32 (sigma0 (nth 14 w 0)) (nth 15 w 0)) in
      extend n' (x :: w)
  end.

Definition schedule (block : list Z) : list Z :=
  rev (extend 48 (rev (words_be block))).

Definition round (s : state) (kw : Z * Z) : state :=
  let T1 := add32 (add32 (add32 (vh s) (Sigma1 (ve s)))
                         (add32 (Ch (ve s) (vf s) (vg s)) (fst kw))) (snd kw) in
  let T2 := add32 (Sigma0 (va s)) (Maj (va s) (vb s) (vc s)) in
  State (add32 T1 T2) (va s) (vb s) (vc s)
        (add32 (vd s) T1) (ve s) (vf s) (vg s).

Definition compress (h : state) (block : list Z) : state :=
  let s := fold_left round (combine K (schedule block)) h in
  State (add32 (va h) (va s)) (add32 (vb h) (vb s))
        (add32 (vc h) (vc s)) (add32 (vd h) (vd s))
        (add32 (ve h) (ve s)) (add32 (vf h) (vf s))
        (add32 (vg h) (vg s)) (add32 (vh h) (vh s)).

Fixpoint blocks (n : nat) (l : list Z) (h : state) : state :=
  match n with
  | O => h
  | S n' => blocks n' (skipn 64 l) (compress h (firstn 64 l))
  end.

Definition word_bytes (w : Z) : bytes :=
  [ Bytes.of_Z (Z.shiftr w 24); Bytes.of_Z (Z.shiftr w 16);
    Bytes.of_Z (Z.shiftr w 8); Bytes.of_Z w ].

Definition state_bytes (s : state) : bytes :=
  word_bytes (va s) ++ word_bytes (vb s) ++ word_bytes (vc s) ++
  word_bytes (vd s) ++ word_bytes (ve s) ++ word_bytes (vf s) ++
  word_bytes (vg s) ++ word_bytes (vh s).

(** The 32-byte digest of a message. *)
Definition hash (m : bytes) : bytes :=
  let p := pad (map Bytes.to_Z m) in
  state_bytes (blocks (length p / 64)%nat p H0).

End SHA256.

(** ** Hexadecimal rendering, as [digest("hex")] produces it *)

Module Hex.

Definition digit (n : N) : ascii :=
  match String.get (N.to_nat n) "0123456789abcdef" with
  | Some c => c
  | None => "0"%char
  end.

Definition of_byte (b : byte) : string :=
  String (digit (Byte.to_N b / 16)) (String (digit (Byte.to_N b mod 16)) "").

Fixpoint encode (bs : bytes) : string :=
  match bs with
  | [] => ""
  | b :: r => of_byte b +:+ encode r
  end.

(** The characters of the alphabet [[0-9a-f]]. *)
Definition is_lower_hex (c : ascii) : bool :=
  let n := N_of_ascii c in
  ((48 <=? n) && (n <=? 57) || (97 <=? n) && (n <=? 102))%N.

Definition value (c : ascii) : option N :=
  let n := N_of_ascii c in
  if ((48 <=? n) && (n <=? 57))%N then Some (n - 48)%N
  else if ((97 <=? n) && (n <=? 102))%N then Some (n - 87)%N
  else None.

(** Reading a hexadecimal string back into bytes. *)
Fixpoint decode (s : string) : option bytes :=
  match s with
  | "" => Some []
  | String hi (String lo r) =>
      match value hi, value lo, decode r with
      | Some h, Some l, Some bs =>
          match Byte.of_N (16 * h + l) with
          | Some b => Some (b :: bs)
          | None => None
          end
      | _, _, _ => None
      end
  | _ => None
  end.

End Hex.

Definition bytes_of_string (s : string) : bytes := list_byte_of_string s.

(** ** JSON values, as [JSON.parse] yields them *)

#[local] Set Warnings "-register-all".

Inductive json : Type :=
| JNull
| JBool (b : bool)
| JNum (x : float)
| JStr (s : string)
| JArr (items : list json)
| JObj (fields : list (string * json)).

(** Reading an own property of a parsed object; of two fields with one key
    the later one wins. *)
Fixpoint get_field (k : string) (fields : list (string * json)) : option json :=
  match fields with
  | [] => None
  | (k', v) :: rest =>
      match get_field k rest with
      | Some v' => Some v'
      | None => if String.eqb k k' then Some v else None
      end
  end.

(** Truthiness, as [!data] tests it, of a value read out of the body;
    [None] is [undefined]. *)
Definition truthy (v : option json) : bool :=
  match v with
  | None => false
  | Some JNull => false
  | Some (JBool b) => b
  | Some (JNum x) => negb (PrimFloat.eqb x 0 || negb (PrimFloat.eqb x x))
  | Some (JStr s) => negb (String.eqb s "")
  | Some (JArr _) => true
  | Some (JObj _) => true
  end.

(** ** The file system under the images folder, and the calls that leave
    the process *)

Inductive fs_node : Type :=
| Regular (content : bytes)
| Unreadable.

Inductive fs_error : Type :=
| ENOENT (path : string)
| EACCES (path : string).

Inductive call : Type :=
| CallSharp (input : bytes)
| CallReadFile (path : string)
| CallBunWrite (path : string) (data : bytes)
| UnhandledRejection (path : string).

(** [pending] holds the writes that [Bun.write] has started and whose
    promise has not settled; [trace] records the calls made so far, oldest
    first, and the rejection of a write's promise, which nothing awaits. *)
Record world : Type := World {
  fs : gmap string fs_node;
  pending : list (string * bytes);
  trace : list call
}.

Definition readFile (files : gmap string fs_node) (path : string) : fs_error + bytes :=
  match files !! path with
  | None => inl (ENOENT path)
  | Some Unreadable => inl (EACCES path)
  | Some (Regular content) => inr content
  end.

(** What a write does to the files once it is carried out: it creates or
    replaces a regular file, and fails on a path that cannot be opened. *)
Definition write_file (path : string) (data : bytes) (files : gmap string fs_node)
  : gmap string fs_node :=
  match files !! path with
  | Some Unreadable => files
  | _ => <[path := Regular data]> files
  end.

(** Whether the file system refuses a write to [path]. *)
Definition write_refused (path : string) (files : gmap string fs_node) : bool :=
  match files !! path with
  | Some Unreadable => true
  | _ => false
  end.

(** An unhandled rejection ends the process. *)
Definition is_rejection (c : call) : bool :=
  match c with
  | UnhandledRejection _ => true
  | _ => false
  end.

Definition exited (w : world) : bool := existsb is_rejection (trace w).

(** A write is carried out and its promise settles, leaving [rest] in
    flight: the files change, or the write is refused and the promise is
    rejected. *)
Definition carry_out (path : string) (data : bytes) (rest : list (string * bytes))
    (w : world) : world :=
  World (write_file path data (fs w)) rest
        (trace w ++ if write_refused path (fs w) then [UnhandledRejection path] else []).

(** The [i]-th pending write settles, while the process runs. *)
Definition land (i : nat) (w : world) : world :=
  if exited w then w
  else match pending w !! i with
       | Some (path, data) => carry_out path data (delete i (pending w)) w
       | None => w
       end.

Definition lands (schedule : list nat) (w : world) : world :=
  fold_left (fun w i => land i w) schedule w.

(** ** Handlers: state passing with exceptions *)

Inductive exn : Type :=
| SyntaxError
| TypeError
| SharpError
| FsError (e : fs_error).

Inductive outcome (A : Type) : Type :=
| Returned (a : A)
| Thrown (e : exn).

Arguments Returned {A} a.
Arguments Thrown {A} e.

Definition handler (A : Type) : Type := world -> outcome A * world.

Definition ret {A : Type} (a : A) : handler A := fun w => (Returned a, w).

Definition throw {A : Type} (e : exn) : handler A := fun w => (Thrown e, w).

Definition bind {A B : Type} (m : handler A) (k : A -> handler B) : handler B :=
  fun w =>
    match m w with
    | (Returned a, w') => k a w'
    | (Thrown e, w') => (Thrown e, w')
    end.

(** [try { m } catch (err) { h err }], for a [catch] block that returns. *)
Definition try_catch {A : Type} (m : handler A) (h : exn -> A) : world -> A * world :=
  fun w =>
    match m w with
    | (Returned a, w') => (a, w')
    | (Thrown e, w') => (h e, w')
    end.

Declare Scope handler_scope.
Delimit Scope handler_scope with handler.
Notation "x <- m ;; k" := (bind m (fun x => k))
  (at level 100, m at next level, right associativity) : handler_scope.

(** ** Responses *)

Inductive response : Type :=
| Text (body : string) (status : Z)
| JsonHash (hash : string)
| Binary (body : bytes) (status : Z) (contentType : string).

Definition status_of (r : response) : Z :=
  match r with
  | Text _ status => status
  | JsonHash _ => 200
  | Binary _ status _ => status
  end.

(** ** The two servers *)

Inductive variant : Type :=
| Avif
| Png.

Definition extension (v : variant) : string :=
  match v with
  | Avif => "avif"
  | Png => "png"
  end.

Definition contentType (v : variant) : string :=
  match v with
  | Avif => "image/avif"
  | Png => "image/png"
  end.

(** What the handlers take from their environment and from libraries whose
    result is not fixed by the repository: the working directory, the
    base64 reading of [Buffer.from], and the image transform, which is
    [sharp(buf).avif({ lossless: true }).toBuffer()] on one server and
    [sharp(buf).png().toBuffer()] on the other; [None] is a rejected
    promise.  [sync_write_limit] is the number of bytes below which
    [Bun.write] carries out a write before it returns (256 KiB in Bun);
    a write of that many bytes or more is left in flight. *)
Record env : Type := Env {
  cwd : string;
  base64_decode : string -> bytes;
  sharp : variant -> bytes -> option bytes;
  sync_write_limit : Z
}.

Definition imagesDir (E : env) : string := cwd E +:+ "/images".

Definition MAX_FILE_SIZE : Z := 10 * 1024 * 1024.

(** [s.replace(/^data:image\/png;base64,/, "")] *)
Fixpoint strip_prefix (p s : string) : option string :=
  match p with
  | "" => Some s
  | String a p' =>
      match s with
      | String b s' => if Ascii.eqb a b then strip_prefix p' s' else None
      | "" => None
      end
  end.

Definition data_uri_prefix : string := "data:image/png;base64,".

Definition replace_data_uri (data : string) : string :=
  match strip_prefix data_uri_prefix data with
  | Some rest => rest
  | None => data
  end.

(** [hash.update(buf).digest("hex")] *)
Definition sha256_hex (buf : bytes) : string := Hex.encode (SHA256.hash buf).

(** [await c.req.json()] *)
Definition req_json (body : option json) : handler json :=
  match body with
  | Some j => ret j
  | None => throw SyntaxError
  end.

(** [const { data } = j] *)
Definition destructure_data (j : json) : handler (option json) :=
  match j with
  | JNull => throw TypeError
  | JObj fields => ret (get_field "data" fields)
  | _ => ret None
  end.

(** [data.replace(...)]: only a string has the method. *)
Definition data_replace (data : option json) : handler string :=
  match data with
  | Some (JStr s) => ret (replace_data_uri s)
  | _ => throw TypeError
  end.

Definition call_sharp (E : env) (v : variant) (input : bytes) : handler bytes :=
  fun w =>
    let w' := World (fs w) (pending w) (trace w ++ [CallSharp input]) in
    match sharp E v input with
    | Some out => (Returned out, w')
    | None => (Thrown SharpError, w')
    end.

(** The world when [Bun.write(path, data)] has returned its promise: a
    short write has been carried out, a longer one is in flight. *)
Definition start_write (E : env) (path : string) (data : bytes) (w : world)
  : world :=
  let w' := World (fs w) (pending w) (trace w ++ [CallBunWrite path data]) in
  if (Z.of_nat (length data) <? sync_write_limit E)%Z
  then carry_out path data (pending w') w'
  else World (fs w') (pending w' ++ [(path, data)]) (trace w').

(** [Bun.write(path, data)], not awaited: the handler goes on with the
    promise unobserved, whether it is settled, rejected or still pending. *)
Definition bun_write (E : env) (path : string) (data : bytes) : handler unit :=
  fun w => (Returned tt, start_write E path data w).

Definition readFileSync (path : string) : handler bytes :=
  fun w =>
    let w' := World (fs w) (pending w) (trace w ++ [CallReadFile path]) in
    match readFile (fs w) path with
    | inr content => (Returned content, w')
    | inl e => (Thrown (FsError e), w')
    end.

Local Open Scope handler_scope.

(** The part of the upload handler that follows the size check. *)
Definition convert_and_store (E : env) (v : variant) (imageBuffer : bytes)
  : handler response :=
  outBuffer <- call_sharp E v imageBuffer ;;
  let hash := sha256_hex outBuffer in
  let filename := hash +:+ "." +:+ extension v in
  let filePath := imagesDir E +:+ "/" +:+ filename in
  _ <- bun_write E filePath outBuffer ;;
  ret (JsonHash hash).

(** The size check on the decoded payload and what follows it. *)
Definition check_and_store (E : env) (v : variant) (imageBuffer : bytes)
  : handler response :=
  if (MAX_FILE_SIZE <? Z.of_nat (length imageBuffer))%Z
  then ret (Text "Image file too large, maximum allowed size is 10MB" 400)
  else convert_and_store E v imageBuffer.

(** The body of the [try] block of [app.post("/upload")]. *)
Definition upload_try (E : env) (v : variant) (body : option json)
  : handler response :=
  j <- req_json body ;;
  data <- destructure_data j ;;
  if negb (truthy data) then ret (Text "Missing image data" 400)
  else
    base64Image <- data_replace data ;;
    let imageBuffer := base64_decode E base64Image in
    check_and_store E v imageBuffer.

Definition upload (E : env) (v : variant) (body : option json)
  : world -> response * world :=
  try_catch (upload_try E v body)
            (fun _ => Text "Invalid JSON payload or conversion error" 400).

(** [file.match(/^([0-9a-f]+)\.avif$/)], or [\.png$] on the other server:
    the longest run of hex digits, which must not be empty, then the dot
    and the extension up to the end of the string.  The result is the first
    capture group. *)
Fixpoint span_hex (s : string) : string * string :=
  match s with
  | String c r =>
      if Hex.is_lower_hex c
      then let (h, t) := span_hex r in (String c h, t)
      else ("", s)
  | "" => ("", "")
  end.

Definition match_file (ext : string) (file : string) : option string :=
  let (h, t) := span_hex file in
  if String.eqb h "" then None
  else if String.eqb t ("." +:+ ext) then Some h
  else None.

(** [app.get("/:file")] *)
Definition get_file (E : env) (v : variant) (file : string)
  : world -> response * world :=
  match match_file (extension v) file with
  | None => fun w => (Text "Invalid image URL" 400, w)
  | Some hash =>
      let filePath := imagesDir E +:+ "/" +:+ hash +:+ "." +:+ extension v in
      try_catch
        (imageBuffer <- readFileSync filePath ;;
         ret (Binary imageBuffer 200 (contentType v)))
        (fun _ => Text "Image not found" 404)
  end.

Local Close Scope handler_scope.

(** ** The server as a machine

    A request is handled in one piece: neither handler reads the shared
    files between two of its awaits.  Between requests a pending write may
    land.  A process that has exited answers nothing. *)

Inductive event : Type :=
| Upload (body : option json)
| Get (file : string)
| Land (i : nat).

Definition step (E : env) (v : variant) (w : world) (e : event)
  : option response * world :=
  if exited w then (None, w)
  else match e with
       | Upload body => let (r, w') := upload E v body w in (Some r, w')
       | Get file => let (r, w') := get_file E v file w in (Some r, w')
       | Land i => (None, land i w)
       end.

(** The responses to a sequence of events, in order, and the world after. *)
Fixpoint run (E : env) (v : variant) (events : list event) (w : world)
  : list response * world :=
  match events with
  | [] => ([], w)
  | e :: rest =>
      let (r, w') := step E v w e in
      let (rs, w'') := run E v rest w' in
      (match r with Some x => x :: rs | None => rs end, w'')
  end.

(** ** A concrete environment, to run the handlers on concrete requests *)

Module Base64.

Definition sextet (c : ascii) : option N :=
  let n := N_of_ascii c in
  if ((65 <=? n) && (n <=? 90))%N then Some (n - 65)%N
  else if ((97 <=? n) && (n <=? 122))%N then Some (n - 71)%N
  else if ((48 <=? n) && (n <=? 57))%N then Some (n + 4)%N
  else if ((n =? 43) || (n =? 45))%N then Some 62%N
  else if ((n =? 47) || (n =? 95))%N then Some 63%N
  else None.

(** The 6-bit values of the characters before the padding; characters
    outside the alphabet are passed over. *)
Fixpoint sextets (s : string) : list N :=
  match s with
  | "" => []
  | String c r =>
      if Ascii.eqb c "="%char then []
      else match sextet c with
           | Some n => n :: sextets r
           | None => sextets r
           end
  end.

Definition byte_of (n : N) : byte := Bytes.of_Z (Z.of_N n).

Fixpoint group (l : list N) : bytes :=
  match l with
  | a :: b :: c :: d :: r =>
      byte_of (a * 4 + b / 16) :: byte_of (b mod 16 * 16 + c / 4)
        :: byte_of (c mod 4 * 64 + d) :: group r
  | [a; b; c] => [byte_of (a * 4 + b / 16); byte_of (b mod 16 * 16 + c / 4)]
  | [a; b] => [byte_of (a * 4 + b / 16)]
  | _ => []
  end%N.

Definition decode (s : string) : bytes := group (sextets s).

End Base64.

Definition png_signature : bytes := [x89; x50; x4e; x47; x0d; x0a; x1a; x0a].

Fixpoint starts_with (p l : bytes) : bool :=
  match p, l with
  | [], _ => true
  | a :: p', b :: l' => Byte.eqb a b && starts_with p' l'
  | _ :: _, [] => false
  end.

(** A stand-in for the image library: it takes what carries the PNG
    signature and hands it back as it is. *)
Definition sample_sharp (v : variant) (input : bytes) : option bytes :=
  if starts_with png_signature input then Some input else None.

Definition sample_env : env :=
  Env "/srv" Base64.decode sample_sharp (256 * 1024).

Definition empty_world : world := World ∅ [] [].

(** A 1x1 PNG image in base64. *)
Definition pixel_base64 : string :=
  "iVBORw0KGgoAAAANSUhEUgAAAAEAAAABCAYAAAAfFcSJAAAADUlEQVR42mNkYPhfDwAChwGA60e6kgAAAABJRU5ErkJggg==".

(** The SHA-256 digest of the bytes of that image as they are: the digest of
    its upload under [sample_sharp].  A transform that re-encodes gives other
    bytes and another digest. *)
Definition pixel_hash : string :=
  "497790947d4666760ce38f3c00e852c71fdb66cae849bae8e9ede352719e1581".

Definition upload_body (data : string) : option json :=
  Some (JObj [("data", JStr data)]).

(** ** Notions the properties are stated with *)

Fixpoint all_hex (s : string) : bool :=
  match s with
  | "" => true
  | String c r => Hex.is_lower_hex c && all_hex r
  end.

(** The key format in words: one or more lowercase hex characters, a dot,
    the extension. *)
Definition key_format (ext : string) (s : string) : Prop :=
  exists h : string, s = h +:+ "." +:+ ext /\ h <> "" /\ all_hex h = true.

(** The decoded payload of a request that carries one: a body that parses
    to an object whose [data] is a non-empty string. *)
Definition payload (E : env) (body : option json) : option bytes :=
  match body with
  | Some (JObj fields) =>
      match get_field "data" fields with
      | Some (JStr s) =>
          if String.eqb s "" then None
          else Some (base64_decode E (replace_data_uri s))
      | _ => None
      end
  | _ => None
  end.

(** The bytes an upload canonicalizes to, when it does. *)
Definition canonical (E : env) (v : variant) (body : option json) : option bytes :=
  match payload E body with
  | Some buf =>
      if (MAX_FILE_SIZE <? Z.of_nat (length buf))%Z then None else sharp E v buf
  | None => None
  end.

(** Where the blob of a digest is kept. *)
Definition blob_path (E : env) (v : variant) (hash : string) : string :=
  imagesDir E +:+ "/" +:+ hash +:+ "." +:+ extension v.

(** A base64 text of [n] groups of four characters before [tail]. *)
Definition zeros_base64 (n : N) (tail : string) : string :=
  N.iter n (String.append "AAAA") tail.

(** The base64 text of the PNG signature and a zero byte, and a payload of
    [9 + 3 * n] bytes that begins with them. *)
Definition png_head_base64 : string := "iVBORw0KGgoA".

Definition large_base64 (n : N) : string :=
  png_head_base64 +:+ zeros_base64 n "".

(** How often a character occurs in a string. *)
Fixpoint count_char (c : ascii) (s : string) : nat :=
  match s with
  | "" => 0
  | String d r => (if Ascii.eqb c d then 1 else 0) + count_char c r
  end.

(** File names that neither server may serve: path separators, [..],
    uppercase digits, a wrong or a second extension, no digits at all. *)
Definition malformed_keys : list string :=
  [ "../abc.avif"; "../abc.png"; "a/b.avif"; "a/b.png"; "..";
    "../../etc/passwd"; "ABCDEF.avif"; "ABCDEF.png"; "abc.jpg";
    "abc.avif.png"; "abc.png.avif"; "abc.avif.avif"; "abc.png.png";
    ".avif"; ".png"; ""; "abc"; "abc."; "abc.AVIF"; "abc.PNG" ].

(** The only writes in flight are writes of one blob, and the files are
    either the given ones, with such a write still to land, or the given
    ones with the blob written. *)
Definition one_blob (path : string) (data : bytes) (files : gmap string fs_node)
    (w : world) : Prop :=
  Forall (fun pw => pw = (path, data)) (pending w) /\
  ((fs w = files /\ pending w <> []) \/ fs w = write_file path data files).

(** What the [catch] block of the upload handler answers. *)
Abbreviation catch_response := (Text "Invalid JSON payload or conversion error" 400).

(** Every regular file, and every write in flight, holds bytes under the
    path of their own digest. *)
Definition addressed (E : env) (v : variant) (w : world) : Prop :=
  (forall (p : string) (c : bytes),
     fs w !! p = Some (Regular c) -> p = blob_path E v (sha256_hex c)) /\
  Forall (fun pw : string * bytes => fst pw = blob_path E v (sha256_hex (snd pw)))
         (pending w).

(** The files once the given writes have been carried out, oldest first. *)
Definition write_all (writes : list (string * bytes)) (files : gmap string fs_node)
  : gmap string fs_node :=
  fold_left (fun f pw => write_file (fst pw) (snd pw) f) writes files.

(** All pending writes land, in the order they were started. *)
Definition drain (w : world) : world :=
  lands (repeat 0%nat (length (pending w))) w.

(** ** SHA-256 as the standard words it

    The description of FIPS 180-4, sections 5 and 6.2, with a message of
    whole bytes: what the padded message, the message schedule, the working
    variables and the digest are required to be.  The functions of section
    4.1.2 and the constants of sections 4.2.2 and 5.3.3 are those above. *)

Module FIPS180.

Import SHA256.

Local Open Scope Z_scope.

(** 5.1.1: the message, the bit 1, then [k] zero bits, [k] the smallest
    number that brings the length to 448 modulo 512 bits (56 modulo 64
    bytes, the first padding byte being [0x80]), then the length of the
    message in bits on 64 bits, most significant byte first. *)
Definition is_padding (m p : list Z) : Prop :=
  exists (k : nat) (len8 : list Z),
    p = (m ++ [0x80] ++ repeat 0 k ++ len8)%list /\
    (Z.of_nat (length m) + 1 + Z.of_nat k) mod 64 = 56 /\
    (forall j : nat,
       (j < k)%nat -> (Z.of_nat (length m) + 1 + Z.of_nat j) mod 64 <> 56) /\
    length len8 = 8%nat /\
    forall i : nat,
      (i < 8)%nat ->
      nth i len8 0 = (8 * Z.of_nat (length m) / 256 ^ (7 - Z.of_nat i)) mod 256.

(** 5.2.1: word [t] of block [i] of the padded message, most significant
    byte first. *)
Definition message_word (p : list Z) (i t : nat) : Z :=
  let o := (64 * i + 4 * t)%nat in
  nth o p 0 * 2 ^ 24 + nth (o + 1) p 0 * 2 ^ 16
  + nth (o + 2) p 0 * 2 ^ 8 + nth (o + 3) p 0.

(** 6.2.2, step 1: the message schedule. *)
Definition is_schedule (M W : nat -> Z) : Prop :=
  (forall t : nat, (t < 16)%nat -> W t = M t) /\
  (forall t : nat,
     (16 <= t < 64)%nat ->
     W t = (sigma1 (W (t - 2)%nat) + W (t - 7)%nat
            + sigma0 (W (t - 15)%nat) + W (t - 16)%nat) mod 2 ^ 32).

(** 6.2.2, step 3: the working variables after one more round. *)
Definition next_variables (s : state) (k w : Z) : state :=
  let T1 := (vh s + Sigma1 (ve s) + Ch (ve s) (vf s) (vg s) + k + w) mod 2 ^ 32 in
  let T2 := (Sigma0 (va s) + Maj (va s) (vb s) (vc s)) mod 2 ^ 32 in
  State ((T1 + T2) mod 2 ^ 32) (va s) (vb s) (vc s)
        ((vd s + T1) mod 2 ^ 32) (ve s) (vf s) (vg s).

(** 6.2.2, steps 2 to 4: from one hash value to the next over a block. *)
Definition is_block_hash (prev : state) (M : nat -> Z) (next : state) : Prop :=
  exists (W : nat -> Z) (V : nat -> state),
    is_schedule M W /\
    V 0%nat = prev /\
    (forall t : nat,
       (t < 64)%nat -> V (S t) = next_variables (V t) (nth t K 0) (W t)) /\
    next = State ((va prev + va (V 64%nat)) mod 2 ^ 32)
                 ((vb prev + vb (V 64%nat)) mod 2 ^ 32)
                 ((vc prev + vc (V 64%nat)) mod 2 ^ 32)
                 ((vd prev + vd (V 64%nat)) mod 2 ^ 32)
                 ((ve prev + ve (V 64%nat)) mod 2 ^ 32)
                 ((vf prev + vf (V 64%nat)) mod 2 ^ 32)
                 ((vg prev + vg (V 64%nat)) mod 2 ^ 32)
                 ((vh prev + vh (V 64%nat)) mod 2 ^ 32).

Definition hash_words (s : state) : list Z :=
  [va s; vb s; vc s; vd s; ve s; vf s; vg s; vh s].

(** 6.2.2, the result: the eight words of the last hash value, each most
    significant byte first. *)
Definition is_digest (s : state) (digest : bytes) : Prop :=
  length digest = 32%nat /\
  forall j i : nat,
    (j < 8)%nat -> (i < 4)%nat ->
    Bytes.to_Z (nth (4 * j + i) digest x00)
    = (nth j (hash_words s) 0 / 256 ^ (3 - Z.of_nat i)) mod 256.

(** 6.2: the digest of a message of bytes. *)
Definition is_hash (message digest : bytes) : Prop :=
  exists (p : list Z) (N : nat) (H : nat -> state),
    is_padding (map Bytes.to_Z message) p /\
    length p = (64 * N)%nat /\
    H 0%nat = H0 /\
    (forall i : nat,
       (i < N)%nat -> is_block_hash (H i) (message_word p i) (H (S i))) /\
    is_digest (H N) digest.

End FIPS180.

(** Block [i] of a padded message: its 64 bytes. *)
Definition block_of (p : list Z) (i : nat) : list Z :=
  firstn 64 (skipn (64 * i) p).

(** * Properties *)

(** ** The model runs: known answers *)

Example round_constants :
  length SHA256.K = 64%nat /\
  nth 0 SHA256.K 0%Z = 0x428a2f98%Z /\ nth 63 SHA256.K 0%Z = 0xc67178f2%Z /\
  SHA256.va SHA256.H0 = 0x6a09e667%Z /\ SHA256.vh SHA256.H0 = 0x5be0cd19%Z.
Proof. vm_compute. repeat split; reflexivity. Qed.

Example sha256_empty :
  sha256_hex [] =
  "e3b0c44298fc1c149afbf4c8996fb92427ae41e4649b934ca495991b7852b855".
Proof. vm_compute. reflexivity. Qed.

Example sha256_abc :
  sha256_hex (bytes_of_string "abc") =
  "ba7816bf8f01cfea414140de5dae2223b00361a396177a9cb410ff61f20015ad".
Proof. vm_compute. reflexivity. Qed.

Example sha256_two_blocks :
  sha256_hex (bytes_of_string
    "abcdbcdecdefdefgefghfghighijhijkijkljklmklmnlmnomnopnopq") =
  "248d6a61d20638b8e5c026930c3e6039a33ce45964ff2167f6ecedd419db06c1".
Proof. vm_compute. reflexivity. Qed.

Example sample_upload :
  fst (upload sample_env Png (upload_body pixel_base64) empty_world)
  = JsonHash pixel_hash.
Proof. vm_compute. reflexivity. Qed.

(** Upload, the write lands, retrieval, the same upload again. *)
Example sample_scenario :
  fst (run sample_env Png
         [ Upload (upload_body pixel_base64); Land 0;
           Get (pixel_hash +:+ ".png"); Upload (upload_body pixel_base64) ]
         empty_world)
  = [ JsonHash pixel_hash;
      Binary (Base64.decode pixel_base64) 200 "image/png";
      JsonHash pixel_hash ].
Proof. vm_compute. reflexivity. Qed.

(** A short write is carried out within the call: the retrieval that
    follows the answer finds the blob. *)
Example sample_early_get :
  fst (run sample_env Png
         [ Upload (upload_body pixel_base64); Get (pixel_hash +:+ ".png") ]
         empty_world)
  = [ JsonHash pixel_hash; Binary (Base64.decode pixel_base64) 200 "image/png" ].
Proof. vm_compute. reflexivity. Qed.

(** An upload whose write is refused is answered with the digest all the
    same, and the process is gone afterwards. *)
Example sample_refused_write :
  fst (run sample_env Png
         [ Upload (upload_body pixel_base64); Get (pixel_hash +:+ ".png");
           Upload (upload_body pixel_base64) ]
         (World {[ blob_path sample_env Png pixel_hash := Unreadable ]} [] []))
  = [ JsonHash pixel_hash ].
Proof. vm_compute. reflexivity. Qed.

(** ** The digest *)

Lemma digit_is_lower_hex (b : byte) :
  Hex.is_lower_hex (Hex.digit (Byte.to_N b / 16)) = true /\
  Hex.is_lower_hex (Hex.digit (Byte.to_N b mod 16)) = true.
Proof. destruct b; split; vm_compute; reflexivity. Qed.

Lemma length_hex_encode (bs : bytes) :
  String.length (Hex.encode bs) = (2 * length bs)%nat.
Proof.
  induction bs as [|b bs IH]; [reflexivity|].
  cbn [Hex.encode]. unfold Hex.of_byte. cbn [String.append String.length].
  rewrite IH. cbn [length]. lia.
Qed.

Lemma all_hex_encode (bs : bytes) : all_hex (Hex.encode bs) = true.
Proof.
  induction bs as [|b bs IH]; [reflexivity|].
  cbn [Hex.encode]. unfold Hex.of_byte. cbn [String.append all_hex].
  destruct (digit_is_lower_hex b) as [Hhi Hlo].
  rewrite Hhi, Hlo, IH. reflexivity.
Qed.

Lemma hex_decode_byte (b : byte) (r : string) :
  Hex.decode (Hex.of_byte b +:+ r) =
  match Hex.decode r with Some bs => Some (b :: bs) | None => None end.
Proof.
  unfold Hex.of_byte. cbn [String.append Hex.decode].
  destruct (Hex.decode r); destruct b; vm_compute; reflexivity.
Qed.

Lemma hex_decode_encode (bs : bytes) : Hex.decode (Hex.encode bs) = Some bs.
Proof.
  induction bs as [|b bs IH]; [reflexivity|].
  cbn [Hex.encode]. rewrite hex_decode_byte, IH. reflexivity.
Qed.

Lemma length_state_bytes (s : SHA256.state) : length (SHA256.state_bytes s) = 32%nat.
Proof. reflexivity. Qed.

Lemma length_sha256 (m : bytes) : length (SHA256.hash m) = 32%nat.
Proof. unfold SHA256.hash. apply length_state_bytes. Qed.

Lemma length_sha256_hex (m : bytes) : String.length (sha256_hex m) = 64%nat.
Proof. unfold sha256_hex. rewrite length_hex_encode, length_sha256. reflexivity. Qed.

Lemma sha256_hex_nonempty (m : bytes) : sha256_hex m <> "".
Proof.
  intros H. pose proof (length_sha256_hex m) as L. rewrite H in L. discriminate.
Qed.

(** ** The hexadecimal writing is the only one that reads back *)

Lemma digit_value (c : ascii) (n : N) :
  Hex.value c = Some n -> Hex.digit n = c /\ (n < 16)%N.
Proof.
  destruct c as [[] [] [] [] [] [] [] []]; vm_compute; intros H;
    try discriminate H; apply (inj Some) in H; subst n; split; reflexivity.
Qed.

Lemma of_byte_digits (hi lo : ascii) (h l : N) (b : byte) :
  Hex.value hi = Some h -> Hex.value lo = Some l ->
  Byte.of_N (16 * h + l) = Some b ->
  Hex.of_byte b = String hi (String lo "").
Proof.
  intros Hh Hl Hb. apply digit_value in Hh as [<- Hh], Hl as [<- Hl].
  apply Byte.to_of_N in Hb. unfold Hex.of_byte. rewrite Hb.
  replace ((16 * h + l) / 16)%N with h
    by (apply (N.div_unique _ 16 h l); [exact Hl | reflexivity]).
  replace ((16 * h + l) mod 16)%N with l
    by (apply (N.mod_unique _ 16 h l); [exact Hl | reflexivity]).
  reflexivity.
Qed.

Lemma hex_decode_inv (d : bytes) :
  forall s : string, Hex.decode s = Some d -> s = Hex.encode d.
Proof.
  induction d as [|b bs IH]; intros [|hi [|lo r]] H; cbn [Hex.decode] in H;
    try discriminate H; try reflexivity.
  - destruct (Hex.value hi), (Hex.value lo), (Hex.decode r); try discriminate H.
    destruct (Byte.of_N _); discriminate H.
  - destruct (Hex.value hi) as [h|] eqn:Hh; [|discriminate H].
    destruct (Hex.value lo) as [l|] eqn:Hl; [|discriminate H].
    destruct (Hex.decode r) as [bs'|] eqn:Hr; [|discriminate H].
    destruct (Byte.of_N (16 * h + l)) as [b'|] eqn:Hb; [|discriminate H].
    apply (inj Some) in H. injection H as -> ->.
    cbn [Hex.encode]. rewrite (of_byte_digits hi lo h l b Hh Hl Hb).
    cbn [String.append]. rewrite <- (IH r Hr). reflexivity.
Qed.

(** ** SHA-256: the computation meets the standard *)

Lemma pow2_32 : (2 ^ 32 = 4294967296)%Z.
Proof. reflexivity. Qed.

Lemma add32_sum (x y : Z) : SHA256.add32 x y = ((x + y) mod 2 ^ 32)%Z.
Proof. reflexivity. Qed.

Lemma mod32_add_l (x y : Z) : ((x mod 2 ^ 32 + y) mod 2 ^ 32 = (x + y) mod 2 ^ 32)%Z.
Proof. apply Z.add_mod_idemp_l. rewrite pow2_32. discriminate. Qed.

Lemma mod32_add_r (x y : Z) : ((x + y mod 2 ^ 32) mod 2 ^ 32 = (x + y) mod 2 ^ 32)%Z.
Proof. apply Z.add_mod_idemp_r. rewrite pow2_32. discriminate. Qed.

Lemma round_is_next_variables (s : SHA256.state) (k w : Z) :
  SHA256.round s (k, w) = FIPS180.next_variables s k w.
Proof.
  unfold SHA256.round, FIPS180.next_variables. cbn [fst snd].
  rewrite !add32_sum.
  generalize (SHA256.Sigma1 (SHA256.ve s)) (SHA256.Sigma0 (SHA256.va s))
    (SHA256.Ch (SHA256.ve s) (SHA256.vf s) (SHA256.vg s))
    (SHA256.Maj (SHA256.va s) (SHA256.vb s) (SHA256.vc s)).
  intros s1 s0 ch mj. rewrite pow2_32.
  f_equal; Z.to_euclidean_division_equations; lia.
Qed.

Lemma schedule_step (a b c d : Z) :
  SHA256.add32 (SHA256.add32 a b) (SHA256.add32 c d)
  = ((a + b + c + d) mod 2 ^ 32)%Z.
Proof.
  rewrite !add32_sum.
  rewrite pow2_32. Z.to_euclidean_division_equations; lia.
Qed.

(** *** Padding *)

Lemma padding_zeros (len : Z) :
  (0 <= len)%Z ->
  let k := ((55 - len) mod 64)%Z in
  (0 <= k < 64)%Z /\ ((len + 1 + k) mod 64 = 56)%Z /\
  forall j : Z, (0 <= j < k)%Z -> ((len + 1 + j) mod 64 <> 56)%Z.
Proof.
  intros Hlen k. subst k. repeat split; try intros j Hj Hmod.
  all: Z.to_euclidean_division_equations; lia.
Qed.

Lemma be_bytes_8 (x : Z) (i : nat) :
  (i < 8)%nat ->
  nth i (SHA256.be_bytes 8 x) 0%Z = ((x / 256 ^ (7 - Z.of_nat i)) mod 256)%Z.
Proof.
  intros Hi. unfold SHA256.be_bytes. cbn [seq rev app map].
  do 8 (destruct i as [|i]; [cbn [nth]; rewrite Z.shiftr_div_pow2 by lia; reflexivity|]).
  lia.
Qed.

Lemma pad_is_padding (m : list Z) : FIPS180.is_padding m (SHA256.pad m).
Proof.
  pose proof (padding_zeros (Z.of_nat (length m)) ltac:(lia)) as (Hk & Hmod & Hmin).
  exists (Z.to_nat ((55 - Z.of_nat (length m)) mod 64)),
         (SHA256.be_bytes 8 (8 * Z.of_nat (length m))).
  split; [reflexivity|]. rewrite Z2Nat.id by lia.
  split; [exact Hmod|]. split.
  - intros j Hj. apply Hmin. lia.
  - split; [reflexivity|]. intros i Hi. apply be_bytes_8, Hi.
Qed.

Lemma length_padding (m p : list Z) :
  FIPS180.is_padding m p -> (length p mod 64 = 0)%nat.
Proof.
  intros (k & len8 & -> & Hmod & _ & Hlen & _).
  rewrite !length_app, Hlen, repeat_length. cbn [length].
  apply Nat2Z.inj. rewrite Nat2Z.inj_mod. 
  replace (Z.of_nat (length m + (1 + (k + 8))))
    with (Z.of_nat (length m) + 1 + Z.of_nat k + 8)%Z by lia.
  Z.to_euclidean_division_equations; lia.
Qed.

(** *** Blocks and words *)

Lemma words_be_nth (l : list Z) (t : nat) :
  (4 * t + 4 <= length l)%nat ->
  nth t (SHA256.words_be l) 0%Z
  = (nth (4 * t) l 0 * 2 ^ 24 + nth (4 * t + 1) l 0 * 2 ^ 16
     + nth (4 * t + 2) l 0 * 2 ^ 8 + nth (4 * t + 3) l 0)%Z.
Proof.
  revert l. induction t as [|t IH]; intros [|a [|b [|c [|d r]]]] Hl;
    cbn [length] in Hl; try lia.
  - reflexivity.
  - cbn [SHA256.words_be nth]. rewrite IH by lia.
    replace (4 * S t)%nat with (S (S (S (S (4 * t))))) by lia.
    cbn [nth Nat.add]. reflexivity.
Qed.

Lemma length_words_be (l : list Z) (n : nat) :
  length l = (4 * n)%nat -> length (SHA256.words_be l) = n.
Proof.
  revert l. induction n as [|n IH]; intros [|a [|b [|c [|d r]]]] Hl;
    cbn [length] in Hl; try lia; [reflexivity|].
  cbn [SHA256.words_be length]. rewrite IH by lia. reflexivity.
Qed.

Lemma length_block_of (p : list Z) (i : nat) :
  (64 * S i <= length p)%nat -> length (block_of p i) = 64%nat.
Proof.
  intros H. unfold block_of. rewrite length_firstn, length_skipn. lia.
Qed.

Lemma nth_block_of (p : list Z) (i j : nat) :
  (j < 64)%nat -> nth j (block_of p i) 0%Z = nth (64 * i + j) p 0%Z.
Proof.
  intros Hj. unfold block_of. rewrite nth_firstn, nth_skipn.
  destruct (Nat.ltb_spec j 64); [reflexivity | lia].
Qed.

Lemma block_words (p : list Z) (i t : nat) :
  (64 * S i <= length p)%nat -> (t < 16)%nat ->
  nth t (SHA256.words_be (block_of p i)) 0%Z = FIPS180.message_word p i t.
Proof.
  intros Hp Ht. rewrite words_be_nth by (rewrite length_block_of by exact Hp; lia).
  unfold FIPS180.message_word. rewrite !nth_block_of by lia.
  rewrite !Nat.add_assoc. reflexivity.
Qed.

(** *** The message schedule *)

Lemma extend_spec (n : nat) (w : list Z) :
  (16 <= length w)%nat ->
  exists tail : list Z,
    rev (SHA256.extend n w) = (rev w ++ tail)%list /\ length tail = n /\
    forall t : nat,
      (length w <= t < length w + n)%nat ->
      nth t (rev w ++ tail)%list 0%Z
      = ((SHA256.sigma1 (nth (t - 2) (rev w ++ tail)%list 0)
          + nth (t - 7) (rev w ++ tail)%list 0
          + SHA256.sigma0 (nth (t - 15) (rev w ++ tail)%list 0)
          + nth (t - 16) (rev w ++ tail)%list 0) mod 2 ^ 32)%Z.
Proof.
  revert w. induction n as [|n IH]; intros w Hw.
  - exists []. rewrite app_nil_r. repeat split. intros t Ht. lia.
  - cbn [SHA256.extend].
    set (x := SHA256.add32 _ _).
    destruct (IH (x :: w)) as (tail & Hrev & Hlen & Hrec); [cbn [length]; lia|].
    exists (x :: tail). cbn [rev] in Hrev, Hrec. rewrite <- app_assoc in Hrev, Hrec.
    cbn [app] in Hrev, Hrec.
    split; [exact Hrev|]. split; [cbn [length]; lia|].
    intros t Ht. destruct (Nat.eq_dec t (length w)) as [->|Hne].
    + rewrite <- (length_rev w) at 1. rewrite nth_middle.
      rewrite !app_nth1 by (rewrite length_rev; lia).
      rewrite !rev_nth by lia.
      replace (length w - S (length w - 2))%nat with 1%nat by lia.
      replace (length w - S (length w - 7))%nat with 6%nat by lia.
      replace (length w - S (length w - 15))%nat with 14%nat by lia.
      replace (length w - S (length w - 16))%nat with 15%nat by lia.
      subst x. apply schedule_step.
    + apply Hrec. cbn [length]. lia.
Qed.

Lemma schedule_is_schedule (blk : list Z) (M : nat -> Z) :
  length blk = 64%nat ->
  (forall t : nat, (t < 16)%nat -> nth t (SHA256.words_be blk) 0%Z = M t) ->
  length (SHA256.schedule blk) = 64%nat /\
  FIPS180.is_schedule M (fun t => nth t (SHA256.schedule blk) 0%Z).
Proof.
  intros Hlen HM.
  pose proof (length_words_be blk 16 Hlen) as Hws.
  destruct (extend_spec 48 (rev (SHA256.words_be blk))) as (tail & Hrev & Htl & Hrec);
    [rewrite length_rev; lia|].
  rewrite rev_involutive in Hrev, Hrec. rewrite length_rev, Hws in Hrec.
  unfold SHA256.schedule. rewrite Hrev.
  split; [rewrite length_app; lia|]. split.
  - intros t Ht. rewrite app_nth1 by lia. apply HM, Ht.
  - intros t Ht. apply Hrec. lia.
Qed.

(** *** The rounds *)

Lemma firstn_succ_nth {A : Type} (l : list A) (t : nat) (d : A) :
  (t < length l)%nat -> firstn (S t) l = (firstn t l ++ [nth t l d])%list.
Proof.
  revert t. induction l as [|a l IH]; intros t Ht; cbn [length] in Ht; [lia|].
  destruct t as [|t]; [reflexivity|].
  cbn [firstn nth app]. rewrite (IH t) by lia. reflexivity.
Qed.

Lemma length_K : length SHA256.K = 64%nat.
Proof. vm_compute. reflexivity. Qed.

Lemma compress_is_block_hash (h : SHA256.state) (blk : list Z) (M : nat -> Z) :
  length blk = 64%nat ->
  (forall t : nat, (t < 16)%nat -> nth t (SHA256.words_be blk) 0%Z = M t) ->
  FIPS180.is_block_hash h M (SHA256.compress h blk).
Proof.
  intros Hlen HM. destruct (schedule_is_schedule blk M Hlen HM) as [Hl Hs].
  set (KW := combine SHA256.K (SHA256.schedule blk)).
  assert (HKW : length KW = 64%nat).
  { unfold KW. rewrite length_combine, length_K, Hl. reflexivity. }
  exists (fun t => nth t (SHA256.schedule blk) 0%Z),
         (fun t => fold_left SHA256.round (firstn t KW) h).
  split; [exact Hs|]. split; [reflexivity|]. split.
  - intros t Ht. rewrite (firstn_succ_nth KW t (0%Z, 0%Z)) by lia.
    rewrite fold_left_app. cbn [fold_left]. unfold KW at 2.
    rewrite combine_nth by (rewrite length_K, Hl; reflexivity).
    apply round_is_next_variables.
  - rewrite firstn_all2 by lia. reflexivity.
Qed.

(** *** The chain of hash values *)

Lemma blocks_succ (i : nat) (l : list Z) (h : SHA256.state) :
  SHA256.blocks (S i) l h
  = SHA256.compress (SHA256.blocks i l h) (firstn 64 (skipn (64 * i) l)).
Proof.
  revert l h. induction i as [|i IH]; intros l h.
  - reflexivity.
  - change (SHA256.blocks (S (S i)) l h)
      with (SHA256.blocks (S i) (skipn 64 l) (SHA256.compress h (firstn 64 l))).
    rewrite IH. rewrite skipn_skipn.
    replace (64 * i + 64)%nat with (64 * S i)%nat by lia. reflexivity.
Qed.

(** *** The digest *)

Lemma to_Z_of_Z (z : Z) : Bytes.to_Z (Bytes.of_Z z) = (z mod 256)%Z.
Proof.
  unfold Bytes.to_Z, Bytes.of_Z.
  assert (Hr : (0 <= z mod 256 < 256)%Z) by (apply Z.mod_pos_bound; lia).
  destruct (Byte.of_N (Z.to_N (z mod 256))) as [b|] eqn:Hb.
  - rewrite (Byte.to_of_N _ Hb). lia.
  - apply Byte.of_N_None_iff in Hb. lia.
Qed.

Lemma state_bytes_is_digest (s : SHA256.state) :
  FIPS180.is_digest s (SHA256.state_bytes s).
Proof.
  split; [reflexivity|]. intros j i Hj Hi.
  do 8 (destruct j as [|j]; [
    do 4 (destruct i as [|i]; [
      cbn [Nat.mul Nat.add nth SHA256.state_bytes SHA256.word_bytes app
           FIPS180.hash_words];
      rewrite to_Z_of_Z, ?Z.shiftr_div_pow2 by lia;
      rewrite ?Z.div_1_r; reflexivity|]); lia|]).
  lia.
Qed.

(** *** The whole *)

Lemma hash_meets_standard (message : bytes) :
  FIPS180.is_hash message (SHA256.hash message).
Proof.
  unfold SHA256.hash. set (p := SHA256.pad (map Bytes.to_Z message)).
  pose proof (pad_is_padding (map Bytes.to_Z message)) as Hpad. fold p in Hpad.
  pose proof (length_padding _ _ Hpad) as Hmod.
  exists p, (length p / 64)%nat, (fun i => SHA256.blocks i p SHA256.H0).
  assert (Hlen : length p = (64 * (length p / 64))%nat).
  { apply Nat.Div0.div_exact. exact Hmod. }
  split; [exact Hpad|]. split; [exact Hlen|]. split; [reflexivity|]. split.
  - intros i Hi. rewrite blocks_succ.
    assert (Hp : (64 * S i <= length p)%nat) by lia.
    apply compress_is_block_hash.
    + apply (length_block_of p i Hp).
    + intros t Ht. apply (block_words p i t Hp Ht).
  - apply state_bytes_is_digest.
Qed.

(** ** SHA-256: the standard leaves no choice *)

Lemma padding_unique (m p1 p2 : list Z) :
  FIPS180.is_padding m p1 -> FIPS180.is_padding m p2 -> p1 = p2.
Proof.
  intros (k1 & l1 & -> & Hm1 & Hmin1 & Hl1 & Hn1)
         (k2 & l2 & -> & Hm2 & Hmin2 & Hl2 & Hn2).
  assert (k1 = k2) as ->.
  { destruct (Nat.lt_trichotomy k1 k2) as [Hlt | [Heq | Hgt]]; [|exact Heq|].
    - destruct (Hmin2 k1 Hlt Hm1).
    - destruct (Hmin1 k2 Hgt Hm2). }
  assert (l1 = l2) as ->; [|reflexivity].
  apply (nth_ext l1 l2 0%Z 0%Z); [congruence|].
  intros i Hi. rewrite Hn1, Hn2 by lia. reflexivity.
Qed.

Lemma schedule_unique (M W1 W2 : nat -> Z) :
  FIPS180.is_schedule M W1 -> FIPS180.is_schedule M W2 ->
  forall t : nat, (t < 64)%nat -> W1 t = W2 t.
Proof.
  intros [Hlo1 Hhi1] [Hlo2 Hhi2] t. induction t as [t IH] using lt_wf_ind.
  intros Ht. destruct (Nat.lt_ge_cases t 16) as [Hlt|Hge].
  - rewrite Hlo1, Hlo2 by exact Hlt. reflexivity.
  - rewrite Hhi1, Hhi2 by lia. rewrite !IH by lia. reflexivity.
Qed.

Lemma block_hash_unique (h : SHA256.state) (M : nat -> Z) (n1 n2 : SHA256.state) :
  FIPS180.is_block_hash h M n1 -> FIPS180.is_block_hash h M n2 -> n1 = n2.
Proof.
  intros (W1 & V1 & Hs1 & Hv1 & Hr1 & ->) (W2 & V2 & Hs2 & Hv2 & Hr2 & ->).
  assert (HV : forall t : nat, (t <= 64)%nat -> V1 t = V2 t).
  { induction t as [|t IH]; intros Ht; [congruence|].
    rewrite Hr1, Hr2 by lia. rewrite IH by lia.
    rewrite (schedule_unique M W1 W2 Hs1 Hs2 t) by lia. reflexivity. }
  rewrite (HV 64%nat) by lia. reflexivity.
Qed.

Lemma to_Z_inj (b1 b2 : byte) : Bytes.to_Z b1 = Bytes.to_Z b2 -> b1 = b2.
Proof.
  unfold Bytes.to_Z. intros H. apply N2Z.inj in H.
  pose proof (Byte.of_to_N b1) as H1. rewrite H, Byte.of_to_N in H1.
  congruence.
Qed.

Lemma digest_unique (s : SHA256.state) (d1 d2 : bytes) :
  FIPS180.is_digest s d1 -> FIPS180.is_digest s d2 -> d1 = d2.
Proof.
  intros [Hl1 Hb1] [Hl2 Hb2].
  apply (nth_ext d1 d2 x00 x00); [congruence|].
  intros n Hn. apply to_Z_inj.
  rewrite (Nat.div_mod_eq n 4).
  assert ((n mod 4 < 4)%nat) by (apply Nat.mod_upper_bound; lia).
  assert ((n / 4 < 8)%nat) by (apply Nat.Div0.div_lt_upper_bound; lia).
  rewrite Hb1, Hb2 by assumption. reflexivity.
Qed.

Lemma standard_determines_hash (message d1 d2 : bytes) :
  FIPS180.is_hash message d1 -> FIPS180.is_hash message d2 -> d1 = d2.
Proof.
  intros (p1 & N1 & H1 & Hp1 & Hl1 & Hi1 & Hb1 & Hd1)
         (p2 & N2 & H2 & Hp2 & Hl2 & Hi2 & Hb2 & Hd2).
  pose proof (padding_unique _ _ _ Hp1 Hp2) as <-.
  assert (N1 = N2) as <- by lia.
  assert (HH : forall i : nat, (i <= N1)%nat -> H1 i = H2 i).
  { induction i as [|i IH]; intros Hi; [congruence|].
    apply (block_hash_unique (H1 i) (FIPS180.message_word p1 i)).
    - apply Hb1. lia.
    - rewrite IH by lia. apply Hb2. lia. }
  rewrite <- (HH N1) in Hd2 by lia.
  exact (digest_unique _ _ _ Hd1 Hd2).
Qed.

(** ** The key validator *)

Lemma span_hex_spec (s : string) :
  s = fst (span_hex s) +:+ snd (span_hex s) /\
  all_hex (fst (span_hex s)) = true /\
  (snd (span_hex s) = "" \/
   exists c t, snd (span_hex s) = String c t /\ Hex.is_lower_hex c = false).
Proof.
  induction s as [|c r IH]; cbn [span_hex].
  - repeat split; auto.
  - destruct (Hex.is_lower_hex c) eqn:Hc.
    + destruct (span_hex r) as [h t]. cbn [fst snd] in *.
      destruct IH as (Hr & Hh & Ht).
      cbn [String.append all_hex]. rewrite Hc, Hh, <- Hr. auto.
    + cbn [fst snd String.append all_hex]. repeat split; eauto.
Qed.

Lemma span_hex_app (h t : string) :
  all_hex h = true ->
  (t = "" \/ exists c t', t = String c t' /\ Hex.is_lower_hex c = false) ->
  span_hex (h +:+ t) = (h, t).
Proof.
  intros Hh Ht. induction h as [|c h IH]; cbn [String.append].
  - destruct Ht as [-> | (c & t' & -> & Hc)]; cbn [span_hex]; [reflexivity|].
    rewrite Hc. reflexivity.
  - cbn [all_hex] in Hh. apply andb_true_iff in Hh as [Hc Hh].
    cbn [span_hex]. rewrite Hc, (IH Hh). reflexivity.
Qed.

Lemma match_file_Some (ext file h : string) :
  match_file ext file = Some h <->
  file = h +:+ "." +:+ ext /\ h <> "" /\ all_hex h = true.
Proof.
  unfold match_file. split.
  - pose proof (span_hex_spec file) as (Hfile & Hh & _).
    destruct (span_hex file) as [h' t]. cbn [fst snd] in *.
    destruct (String.eqb_spec h' "") as [|Hne]; [discriminate|].
    destruct (String.eqb_spec t ("." +:+ ext)) as [Ht|]; [|discriminate].
    intros [= <-]. subst t. auto.
  - intros (-> & Hne & Hh).
    rewrite (span_hex_app h ("." +:+ ext) Hh).
    + destruct (String.eqb_spec h "") as [|_]; [contradiction|].
      rewrite String.eqb_refl. reflexivity.
    + right. exists "."%char, ext. split; reflexivity.
Qed.

Lemma match_file_accepts (ext file : string) :
  is_Some (match_file ext file) <-> key_format ext file.
Proof.
  unfold key_format. split.
  - intros [h Hh]. exists h. apply match_file_Some. exact Hh.
  - intros (h & Hh). exists h. apply match_file_Some. exact Hh.
Qed.

Lemma get_file_invalid (E : env) (v : variant) (file : string) (w : world) :
  match_file (extension v) file = None ->
  get_file E v file w = (Text "Invalid image URL" 400, w).
Proof. intros H. unfold get_file. rewrite H. reflexivity. Qed.

Lemma get_file_valid (E : env) (v : variant) (file hash : string) (w : world) :
  match_file (extension v) file = Some hash ->
  get_file E v file w =
  (match readFile (fs w) (blob_path E v hash) with
   | inr content => Binary content 200 (contentType v)
   | inl _ => Text "Image not found" 404
   end,
   World (fs w) (pending w) (trace w ++ [CallReadFile (blob_path E v hash)])).
Proof.
  intros H. unfold get_file. rewrite H.
  unfold try_catch, bind, readFileSync, ret, blob_path.
  destruct (readFile _ _); reflexivity.
Qed.

Lemma count_char_app (c : ascii) (s t : string) :
  count_char c (s +:+ t) = (count_char c s + count_char c t)%nat.
Proof.
  induction s as [|d s IH]; cbn [String.append count_char]; [reflexivity|].
  rewrite IH. lia.
Qed.

Lemma count_char_all_hex (c : ascii) (h : string) :
  Hex.is_lower_hex c = false -> all_hex h = true -> count_char c h = 0%nat.
Proof.
  intros Hc. induction h as [|d h IH]; cbn [all_hex count_char]; [reflexivity|].
  intros Hh. apply andb_true_iff in Hh as [Hd Hh].
  destruct (Ascii.eqb_spec c d) as [->|_]; [congruence|].
  rewrite (IH Hh). reflexivity.
Qed.

Lemma key_format_shape (v : variant) (file : string) :
  key_format (extension v) file ->
  count_char "/" file = 0%nat /\ count_char "\" file = 0%nat /\
  count_char "." file = 1%nat.
Proof.
  intros (h & -> & _ & Hh).
  rewrite !count_char_app, !(count_char_all_hex _ h) by (reflexivity || exact Hh).
  destruct v; vm_compute; auto.
Qed.

(** C3: a file name passes the validator exactly when it is one or more
    lowercase hex characters, a dot and the server's extension; any other
    name is answered with status 400 and the world, its record of file
    system calls included, is left as it was.  Accepted names hold no
    separator and a single dot; the listed malformed names are refused on
    both servers, and each server refuses the other's extension. *)
Theorem key_validator_exact :
  forall (E : env) (v : variant) (file : string) (w : world),
    (is_Some (match_file (extension v) file) <-> key_format (extension v) file) /\
    (~ key_format (extension v) file ->
     get_file E v file w = (Text "Invalid image URL" 400, w)) /\
    (key_format (extension v) file ->
     count_char "/" file = 0%nat /\ count_char "\" file = 0%nat /\
     count_char "." file = 1%nat) /\
    Forall (fun f => get_file E v f w = (Text "Invalid image URL" 400, w))
           malformed_keys /\
    get_file E Avif "abc.png" w = (Text "Invalid image URL" 400, w) /\
    get_file E Png "abc.avif" w = (Text "Invalid image URL" 400, w).
Proof.
  intros E v file w. split; [apply match_file_accepts|].
  split.
  { intros Hno. apply get_file_invalid.
    destruct (match_file (extension v) file) as [h|] eqn:Hm; [|reflexivity].
    exfalso. apply Hno, match_file_accepts. rewrite Hm. eauto. }
  split; [apply key_format_shape|].
  split.
  { unfold malformed_keys.
    repeat (apply Forall_cons; split;
            [apply get_file_invalid; destruct v; vm_compute; reflexivity|]).
    constructor. }
  split; apply get_file_invalid; vm_compute; reflexivity.
Qed.

Lemma key_validator_exact_witness :
  get_file sample_env Avif "../../etc/passwd" empty_world
    = (Text "Invalid image URL" 400, empty_world) /\
  (count_char "/" "0a1b2c.avif" = 0%nat /\ count_char "\" "0a1b2c.avif" = 0%nat /\
   count_char "." "0a1b2c.avif" = 1%nat).
Proof.
  split.
  - destruct (key_validator_exact sample_env Avif "../../etc/passwd" empty_world)
      as (Hiff & Hrej & _).
    apply Hrej. intros Hk. apply Hiff in Hk. vm_compute in Hk.
    destruct Hk as [h Hk]. discriminate Hk.
  - destruct (key_validator_exact sample_env Avif "0a1b2c.avif" empty_world)
      as (Hiff & _ & Hshape & _).
    apply Hshape, Hiff. vm_compute. eauto.
Defined.

(** ** Retrieval of a well-formed key *)

Lemma readFile_fails (files : gmap string fs_node) (path : string) :
  (exists e, readFile files path = inl e) <->
  files !! path = None \/ files !! path = Some Unreadable.
Proof.
  unfold readFile. destruct (files !! path) as [[c|]|].
  - split; [intros [e He]; discriminate He | intros [H|H]; discriminate H].
  - split; [right; reflexivity | intros _; eexists; reflexivity].
  - split; [left; reflexivity | intros _; eexists; reflexivity].
Qed.

(** C8: a key that passes the validator and whose path is absent or cannot
    be read is answered with the text "Image not found" and status 404, not
    with the 400 of a malformed key; the answer is that constant text
    whatever the path and whatever error the read raised. *)
Theorem missing_blob_is_404 :
  forall (E : env) (v : variant) (file hash : string) (w : world),
    match_file (extension v) file = Some hash ->
    fs w !! blob_path E v hash = None \/
    fs w !! blob_path E v hash = Some Unreadable ->
    fst (get_file E v file w) = Text "Image not found" 404 /\
    status_of (fst (get_file E v file w)) = 404%Z /\
    status_of (fst (get_file E v file w)) <> 400%Z /\
    fs (snd (get_file E v file w)) = fs w.
Proof.
  intros E v file hash w Hm Hfs.
  apply readFile_fails in Hfs as [e He].
  rewrite (get_file_valid E v file hash w Hm), He. cbn.
  repeat split; lia.
Qed.

Lemma missing_blob_is_404_witness :
  fst (get_file sample_env Png (pixel_hash +:+ ".png") empty_world)
    = Text "Image not found" 404 /\
  fst (get_file sample_env Avif "00ff.avif"
         (World {[ "/srv/images/00ff.avif" := Unreadable ]} [] []))
    = Text "Image not found" 404.
Proof.
  split.
  - apply (missing_blob_is_404 sample_env Png (pixel_hash +:+ ".png") pixel_hash
             empty_world); [vm_compute; reflexivity|].
    left. apply lookup_empty.
  - apply (missing_blob_is_404 sample_env Avif "00ff.avif" "00ff"
             (World {[ "/srv/images/00ff.avif" := Unreadable ]} [] []));
      [vm_compute; reflexivity|].
    right. apply lookup_singleton_eq.
Defined.

(** ** The upload handler, case by case *)

Lemma upload_no_payload (E : env) (v : variant) (body : option json) (w : world) :
  payload E body = None ->
  upload E v body w = (Text "Missing image data" 400, w) \/
  upload E v body w = (catch_response, w).
Proof.
  unfold payload, upload, upload_try, try_catch, bind.
  destruct body as [j|]; [|right; reflexivity].
  destruct j as [ | | | | |fields]; cbn; auto.
  destruct (get_field "data" fields) as [d|]; cbn; auto.
  destruct d as [ |b|x|s|items|fields']; cbn; auto.
  - destruct b; cbn; auto.
  - destruct (negb _); cbn; auto.
  - destruct (String.eqb s ""); cbn; [auto|discriminate].
Qed.

Lemma upload_payload (E : env) (v : variant) (body : option json) (buf : bytes)
    (w : world) :
  payload E body = Some buf ->
  upload E v body w = try_catch (check_and_store E v buf) (fun _ => catch_response) w.
Proof.
  unfold payload, upload, upload_try.
  destruct body as [[ | | | | |fields]|]; try discriminate.
  destruct (get_field "data" fields) as [[ | | |s| | ]|] eqn:Hd; try discriminate.
  destruct (String.eqb s "") eqn:Hs; [discriminate|].
  intros [= <-].
  unfold try_catch, bind. cbn. rewrite Hd. cbn. rewrite Hs. cbn. reflexivity.
Qed.

Lemma store_result (E : env) (v : variant) (buf : bytes) (w : world) :
  try_catch (convert_and_store E v buf) (fun _ => catch_response) w =
  match sharp E v buf with
  | Some c =>
      (JsonHash (sha256_hex c),
       start_write E (blob_path E v (sha256_hex c)) c
         (World (fs w) (pending w) (trace w ++ [CallSharp buf])))
  | None =>
      (catch_response, World (fs w) (pending w) (trace w ++ [CallSharp buf]))
  end.
Proof.
  unfold try_catch, convert_and_store, bind, call_sharp, bun_write, ret, blob_path.
  destruct (sharp E v buf) as [c|]; reflexivity.
Qed.

(** The three things [Bun.write] leaves behind. *)
Lemma start_write_long (E : env) (path : string) (data : bytes) (w : world) :
  (sync_write_limit E <= Z.of_nat (length data))%Z ->
  start_write E path data w =
  World (fs w) (pending w ++ [(path, data)]) (trace w ++ [CallBunWrite path data]).
Proof.
  intros H. unfold start_write.
  destruct (Z.ltb_spec (Z.of_nat (length data)) (sync_write_limit E)); [lia|].
  reflexivity.
Qed.

Lemma start_write_short (E : env) (path : string) (data : bytes) (w : world) :
  (Z.of_nat (length data) < sync_write_limit E)%Z ->
  start_write E path data w =
  World (write_file path data (fs w)) (pending w)
        ((trace w ++ [CallBunWrite path data]) ++
         if write_refused path (fs w) then [UnhandledRejection path] else []).
Proof.
  intros H. unfold start_write.
  destruct (Z.ltb_spec (Z.of_nat (length data)) (sync_write_limit E)); [|lia].
  reflexivity.
Qed.

Lemma start_write_cases (E : env) (path : string) (data : bytes) (w : world) :
  (fs (start_write E path data w) = fs w /\
   pending (start_write E path data w) = (pending w ++ [(path, data)])%list) \/
  (fs (start_write E path data w) = write_file path data (fs w) /\
   pending (start_write E path data w) = pending w).
Proof.
  destruct (Z.ltb_spec (Z.of_nat (length data)) (sync_write_limit E)).
  - right. rewrite start_write_short by lia. auto.
  - left. rewrite start_write_long by lia. auto.
Qed.

Lemma start_write_trace (E : env) (path : string) (data : bytes) (w : world) :
  exists rest,
    trace (start_write E path data w)
    = (trace w ++ CallBunWrite path data :: rest)%list.
Proof.
  destruct (Z.ltb_spec (Z.of_nat (length data)) (sync_write_limit E)).
  - rewrite start_write_short by lia. cbn [trace]. rewrite <- app_assoc. eauto.
  - rewrite start_write_long by lia. cbn [trace]. eauto.
Qed.

Lemma check_too_large (E : env) (v : variant) (buf : bytes) (w : world) :
  (MAX_FILE_SIZE < Z.of_nat (length buf))%Z ->
  try_catch (check_and_store E v buf) (fun _ => catch_response) w =
  (Text "Image file too large, maximum allowed size is 10MB" 400, w).
Proof.
  intros H. unfold check_and_store. apply Z.ltb_lt in H. rewrite H. reflexivity.
Qed.

Lemma check_within (E : env) (v : variant) (buf : bytes) (w : world) :
  (Z.of_nat (length buf) <= MAX_FILE_SIZE)%Z ->
  try_catch (check_and_store E v buf) (fun _ => catch_response) w =
  try_catch (convert_and_store E v buf) (fun _ => catch_response) w.
Proof.
  intros H. unfold check_and_store.
  destruct (Z.ltb_spec MAX_FILE_SIZE (Z.of_nat (length buf))); [lia|reflexivity].
Qed.

Lemma upload_success (E : env) (v : variant) (body : option json) (c : bytes)
    (w : world) :
  canonical E v body = Some c ->
  exists buf,
    payload E body = Some buf /\ sharp E v buf = Some c /\
    upload E v body w =
    (JsonHash (sha256_hex c),
     start_write E (blob_path E v (sha256_hex c)) c
       (World (fs w) (pending w) (trace w ++ [CallSharp buf]))).
Proof.
  unfold canonical. destruct (payload E body) as [buf|] eqn:Hp; [|discriminate].
  destruct (Z.ltb_spec MAX_FILE_SIZE (Z.of_nat (length buf))); [discriminate|].
  intros Hc. exists buf. repeat split; [exact Hc|].
  rewrite (upload_payload E v body buf w Hp), check_within, store_result, Hc by lia.
  reflexivity.
Qed.

Lemma upload_failure (E : env) (v : variant) (body : option json) (w : world) :
  canonical E v body = None ->
  exists msg,
    fst (upload E v body w) = Text msg 400 /\
    fs (snd (upload E v body w)) = fs w /\
    pending (snd (upload E v body w)) = pending w.
Proof.
  unfold canonical. destruct (payload E body) as [buf|] eqn:Hp.
  - rewrite (upload_payload E v body buf w Hp).
    destruct (Z.ltb_spec MAX_FILE_SIZE (Z.of_nat (length buf))).
    + intros _. rewrite check_too_large by lia. eexists. cbn. eauto.
    + intros Hc. rewrite check_within, store_result, Hc by lia.
      eexists. cbn. eauto.
  - intros _. destruct (upload_no_payload E v body w Hp) as [-> | ->];
      eexists; cbn; eauto.
Qed.

Lemma upload_JsonHash_inv (E : env) (v : variant) (body : option json)
    (w : world) (h : string) :
  fst (upload E v body w) = JsonHash h ->
  exists c, canonical E v body = Some c /\ h = sha256_hex c.
Proof.
  destruct (canonical E v body) as [c|] eqn:Hc.
  - destruct (upload_success E v body c w Hc) as (buf & _ & _ & ->).
    intros [= <-]. eauto.
  - destruct (upload_failure E v body w Hc) as (msg & -> & _). discriminate.
Qed.

(** ** The digest an upload returns *)

(** C4: the digest of any byte sequence [b], the empty one included, is
    defined and is 64 characters of the alphabet [0-9a-f].  It is the
    hexadecimal writing of 32 bytes (256 bits) and reads back to them; these
    bytes are the ones that FIPS 180-4 gives as the SHA-256 hash of [b], and
    the standard gives no others; the digest is the one string that reads
    back to them.  The bytes alone decide it: an upload that canonicalizes
    to [b] answers with this digest whatever the request, the environment
    and the files are.  The digests of the empty message, of [abc] and of
    the two-block message of the standard are the published ones. *)
Theorem digest_is_sha256_in_lower_hex :
  forall b : bytes,
    String.length (sha256_hex b) = 64%nat /\
    all_hex (sha256_hex b) = true /\
    length (SHA256.hash b) = 32%nat /\
    Hex.decode (sha256_hex b) = Some (SHA256.hash b) /\
    (forall d : bytes, FIPS180.is_hash b d <-> d = SHA256.hash b) /\
    (forall s : string,
       (exists d : bytes, FIPS180.is_hash b d /\ Hex.decode s = Some d)
       <-> s = sha256_hex b) /\
    (forall (E : env) (v : variant) (body : option json) (w : world),
       canonical E v body = Some b ->
       fst (upload E v body w) = JsonHash (sha256_hex b)) /\
    sha256_hex [] =
      "e3b0c44298fc1c149afbf4c8996fb92427ae41e4649b934ca495991b7852b855" /\
    sha256_hex (bytes_of_string "abc") =
      "ba7816bf8f01cfea414140de5dae2223b00361a396177a9cb410ff61f20015ad" /\
    sha256_hex (bytes_of_string
      "abcdbcdecdefdefgefghfghighijhijkijkljklmklmnlmnomnopnopq") =
      "248d6a61d20638b8e5c026930c3e6039a33ce45964ff2167f6ecedd419db06c1".
Proof.
  intros b. split; [apply length_sha256_hex|].
  split; [apply all_hex_encode|].
  split; [apply length_sha256|].
  split; [apply hex_decode_encode|].
  assert (Hstd : forall d : bytes, FIPS180.is_hash b d <-> d = SHA256.hash b).
  { intros d. split.
    - intros Hd. exact (standard_determines_hash b _ _ Hd (hash_meets_standard b)).
    - intros ->. apply hash_meets_standard. }
  split; [exact Hstd|]. split.
  { intros s. split.
    - intros (d & Hd & Hs). apply Hstd in Hd. subst d.
      apply hex_decode_inv, Hs.
    - intros ->. exists (SHA256.hash b).
      split; [apply hash_meets_standard | apply hex_decode_encode]. }
  split.
  { intros E v body w Hc.
    destruct (upload_success E v body b w Hc) as (buf & _ & _ & ->). reflexivity. }
  split; [vm_compute; reflexivity|].
  split; vm_compute; reflexivity.
Qed.

(** ** The size ceiling *)

Lemma zeros_base64_succ (n : N) (tail : string) :
  zeros_base64 (N.succ n) tail = "AAAA" +:+ zeros_base64 n tail.
Proof. unfold zeros_base64. apply N.iter_succ. Qed.

Lemma decode_zero_group (s : string) :
  Base64.decode ("AAAA" +:+ s) = x00 :: x00 :: x00 :: Base64.decode s.
Proof. reflexivity. Qed.

Lemma length_decode_zeros (n : N) (tail : string) :
  Z.of_nat (length (Base64.decode (zeros_base64 n tail))) =
  (3 * Z.of_N n + Z.of_nat (length (Base64.decode tail)))%Z.
Proof.
  induction n as [|n IH] using N.peano_ind.
  - reflexivity.
  - rewrite zeros_base64_succ, decode_zero_group. cbn [length].
    rewrite !Nat2Z.inj_succ, IH. lia.
Qed.

Lemma length_sample_decode_zeros (n : N) (tail : string) :
  Z.of_nat (length (base64_decode sample_env (zeros_base64 n tail))) =
  (3 * Z.of_N n + Z.of_nat (length (Base64.decode tail)))%Z.
Proof. exact (length_decode_zeros n tail). Qed.

Lemma payload_zeros (E : env) (n : N) (tail : string) :
  payload E (upload_body (zeros_base64 (N.succ n) tail)) =
  Some (base64_decode E (zeros_base64 (N.succ n) tail)).
Proof.
  rewrite zeros_base64_succ. generalize (zeros_base64 n tail). intros s.
  reflexivity.
Qed.

(** C2: the ceiling is 10 * 1024 * 1024 = 10485760 bytes.  A decoded payload
    of exactly that length passes the size check: the handler goes on to the
    image transform, which is the next call it makes.  A decoded payload of
    one byte more, or longer, is answered with the too-large text and status
    400, whatever the transform would have said of it, and the world is left
    as it was, so the transform was not called. *)
Theorem size_boundary :
  forall (E : env) (v : variant) (body : option json) (buf : bytes) (w : world),
    payload E body = Some buf ->
    MAX_FILE_SIZE = 10485760%Z /\
    (Z.of_nat (length buf) = MAX_FILE_SIZE ->
     upload E v body w
       = try_catch (convert_and_store E v buf) (fun _ => catch_response) w /\
     exists rest,
       trace (snd (upload E v body w)) = (trace w ++ CallSharp buf :: rest)%list) /\
    ((MAX_FILE_SIZE + 1 <= Z.of_nat (length buf))%Z ->
     upload E v body w
       = (Text "Image file too large, maximum allowed size is 10MB" 400, w)).
Proof.
  intros E v body buf w Hp. split; [reflexivity|].
  rewrite (upload_payload E v body buf w Hp). split.
  - intros Hlen. rewrite check_within by lia. split; [reflexivity|].
    rewrite store_result. destruct (sharp E v buf) as [c|]; cbn [snd trace]; eauto.
    destruct (start_write_trace E (blob_path E v (sha256_hex c)) c
                (World (fs w) (pending w) (trace w ++ [CallSharp buf])))
      as [rest ->].
    cbn [trace]. rewrite <- app_assoc. eauto.
  - intros Hlen. apply check_too_large. lia.
Qed.

Lemma size_boundary_witness :
  (exists rest,
     trace (snd (upload sample_env Avif
                   (upload_body (zeros_base64 (N.succ 3495252) "AA=="))
                   empty_world))
     = (trace empty_world ++
        CallSharp (base64_decode sample_env (zeros_base64 (N.succ 3495252) "AA=="))
          :: rest)%list) /\
  upload sample_env Avif (upload_body (zeros_base64 (N.succ 3495252) "AAA="))
         empty_world
  = (Text "Image file too large, maximum allowed size is 10MB" 400, empty_world).
Proof.
  split.
  - destruct (size_boundary sample_env Avif
                (upload_body (zeros_base64 (N.succ 3495252) "AA=="))
                (base64_decode sample_env (zeros_base64 (N.succ 3495252) "AA=="))
                empty_world (payload_zeros sample_env 3495252 "AA=="))
      as (_ & Hfit & _).
    apply Hfit. rewrite length_sample_decode_zeros. reflexivity.
  - destruct (size_boundary sample_env Avif
                (upload_body (zeros_base64 (N.succ 3495252) "AAA="))
                (base64_decode sample_env (zeros_base64 (N.succ 3495252) "AAA="))
                empty_world (payload_zeros sample_env 3495252 "AAA="))
      as (_ & _ & Hover).
    apply Hover. rewrite length_sample_decode_zeros. vm_compute. discriminate.
Defined.

(** ** The data URI wrapper *)

Lemma strip_prefix_app (p rest : string) : strip_prefix p (p +:+ rest) = Some rest.
Proof.
  induction p as [|a p IH]; cbn [String.append strip_prefix]; [reflexivity|].
  rewrite Ascii.eqb_refl. exact IH.
Qed.

Lemma replace_data_uri_png (rest : string) :
  replace_data_uri ("data:image/png;base64," +:+ rest) = rest.
Proof.
  unfold replace_data_uri.
  change "data:image/png;base64," with data_uri_prefix.
  rewrite strip_prefix_app. reflexivity.
Qed.

(** C5, the claim as it is written, fails: a wrapper of another media type
    stays in the string that is handed to the base64 reading, and the
    decoded payload is not that of the bare text. *)
Lemma jpeg_data_uri_not_stripped :
  ~ (forall mime rest : string,
       replace_data_uri ("data:" +:+ mime +:+ ";base64," +:+ rest) = rest) /\
  replace_data_uri "data:image/jpeg;base64,/9j/4AAQ"
    = "data:image/jpeg;base64,/9j/4AAQ" /\
  payload sample_env (upload_body "data:image/jpeg;base64,/9j/4AAQ")
    <> Some (base64_decode sample_env "/9j/4AAQ").
Proof.
  split; [|split].
  - intros H. specialize (H "image/jpeg" "/9j/4AAQ"). vm_compute in H.
    discriminate H.
  - reflexivity.
  - vm_compute. discriminate.
Qed.

(** C5, amended: the wrapper that is taken off is the one of PNG images.
    A data string that begins with [data:image/png;base64,] loses exactly
    that prefix before the base64 reading, so that the handler works on the
    decoding of the rest; a data string that does not begin with it goes to
    the base64 reading as it is. *)
Theorem png_data_uri_is_stripped :
  forall (E : env) (v : variant) (rest : string) (w : world),
    replace_data_uri ("data:image/png;base64," +:+ rest) = rest /\
    payload E (upload_body ("data:image/png;base64," +:+ rest))
      = Some (base64_decode E rest) /\
    upload E v (upload_body ("data:image/png;base64," +:+ rest)) w
      = try_catch (check_and_store E v (base64_decode E rest))
                  (fun _ => catch_response) w /\
    (forall data : string,
       strip_prefix data_uri_prefix data = None -> replace_data_uri data = data).
Proof.
  intros E v rest w.
  assert (Hp : payload E (upload_body ("data:image/png;base64," +:+ rest))
               = Some (base64_decode E rest)).
  { reflexivity. }
  split; [apply replace_data_uri_png|].
  split; [exact Hp|].
  split; [apply upload_payload, Hp|].
  intros data Hd. unfold replace_data_uri. rewrite Hd. reflexivity.
Qed.

Lemma png_data_uri_is_stripped_witness :
  replace_data_uri "data:image/jpeg;base64,/9j/4AAQ"
    = "data:image/jpeg;base64,/9j/4AAQ" /\
  replace_data_uri "iVBORw0KGgo=" = "iVBORw0KGgo=".
Proof.
  split.
  - apply (png_data_uri_is_stripped sample_env Png "" empty_world).
    reflexivity.
  - apply (png_data_uri_is_stripped sample_env Png "" empty_world).
    reflexivity.
Defined.

(** ** Uploads the handler turns down *)

Lemma get_file_fs (E : env) (v : variant) (file : string) (w1 w2 : world) :
  fs w1 = fs w2 -> fst (get_file E v file w1) = fst (get_file E v file w2).
Proof.
  intros Hfs. destruct (match_file (extension v) file) as [h|] eqn:Hm.
  - rewrite !(get_file_valid E v file h _ Hm), Hfs. reflexivity.
  - rewrite !(get_file_invalid E v file _ Hm). reflexivity.
Qed.

(** X14: The failures the handler sees.  An upload either canonicalizes, and
    is answered with the digest of the canonical bytes, or it is answered
    with status 400, and then no file is written and no write is started:
    the files and the pending writes are those from before the request, and
    any later retrieval is answered as if the upload had never been made.
    This covers a body that is not JSON, a body that is [null], a missing
    or empty [data], a [data] that is not a string, a payload over the
    ceiling and an image the transform rejects. *)
Theorem failed_upload_changes_nothing :
  forall (E : env) (v : variant) (body : option json) (w : world),
    ((exists c, canonical E v body = Some c /\
                fst (upload E v body w) = JsonHash (sha256_hex c)) \/
     (canonical E v body = None /\
      status_of (fst (upload E v body w)) = 400%Z /\
      fs (snd (upload E v body w)) = fs w /\
      pending (snd (upload E v body w)) = pending w /\
      forall file : string,
        fst (get_file E v file (snd (upload E v body w)))
        = fst (get_file E v file w))) /\
    upload E v None w = (catch_response, w) /\
    upload E v (Some JNull) w = (catch_response, w) /\
    upload E v (Some (JObj [])) w = (Text "Missing image data" 400, w) /\
    upload E v (upload_body "") w = (Text "Missing image data" 400, w) /\
    upload E v (Some (JObj [("data", JBool true)])) w = (catch_response, w).
Proof.
  intros E v body w. split; [|repeat split].
  destruct (canonical E v body) as [c|] eqn:Hc.
  - left. exists c. split; [reflexivity|].
    destruct (upload_success E v body c w Hc) as (buf & _ & _ & ->). reflexivity.
  - right. destruct (upload_failure E v body w Hc) as (msg & Hr & Hfs & Hpend).
    split; [reflexivity|]. rewrite Hr. cbn [status_of].
    repeat split; auto using get_file_fs.
Qed.

(** ** Keys shorter than a digest *)

Lemma digest_key_matches (v : variant) (c : bytes) :
  match_file (extension v) (sha256_hex c +:+ "." +:+ extension v)
  = Some (sha256_hex c).
Proof.
  apply match_file_Some. split; [reflexivity|].
  split; [apply sha256_hex_nonempty | apply all_hex_encode].
Qed.

(** C10: the validator does not ask for 64 hex characters.  Any non-empty
    run of lowercase hex characters followed by the dot and the extension
    passes, the handler then reads the file of that name, and answers 404
    when there is none; yet every digest an upload returns has exactly 64
    characters. *)
Theorem short_key_reaches_lookup :
  forall (E : env) (v : variant) (h : string) (w : world),
    h <> "" -> all_hex h = true ->
    match_file (extension v) (h +:+ "." +:+ extension v) = Some h /\
    trace (snd (get_file E v (h +:+ "." +:+ extension v) w))
      = (trace w ++ [CallReadFile (blob_path E v h)])%list /\
    (fs w !! blob_path E v h = None ->
     fst (get_file E v (h +:+ "." +:+ extension v) w) = Text "Image not found" 404) /\
    (forall (body : option json) (w0 : world) (hash : string),
       fst (upload E v body w0) = JsonHash hash -> String.length hash = 64%nat).
Proof.
  intros E v h w Hne Hh.
  assert (Hm : match_file (extension v) (h +:+ "." +:+ extension v) = Some h).
  { apply match_file_Some. auto. }
  split; [exact Hm|].
  rewrite (get_file_valid E v _ h w Hm). cbn [fst snd trace].
  split; [reflexivity|]. split.
  - intros Hnone. unfold readFile. rewrite Hnone. reflexivity.
  - intros body w0 hash Hup.
    apply upload_JsonHash_inv in Hup as (c & _ & ->). apply length_sha256_hex.
Qed.

Lemma short_key_reaches_lookup_witness :
  match_file "avif" "a.avif" = Some "a" /\
  trace (snd (get_file sample_env Avif "a.avif" empty_world))
    = [CallReadFile "/srv/images/a.avif"] /\
  fst (get_file sample_env Avif "a.avif" empty_world) = Text "Image not found" 404 /\
  String.length pixel_hash = 64%nat.
Proof.
  destruct (short_key_reaches_lookup sample_env Avif "a" empty_world)
    as (Hm & Htrace & Hmiss & Hlen); [discriminate | reflexivity |].
  split; [exact Hm|]. split; [exact Htrace|].
  split; [apply Hmiss, lookup_empty|].
  apply (Hlen (upload_body pixel_base64) empty_world). vm_compute. reflexivity.
Defined.

(** ** Writes that are not awaited *)

Lemma write_file_idem (path : string) (data : bytes) (files : gmap string fs_node) :
  write_file path data (write_file path data files) = write_file path data files.
Proof.
  unfold write_file at 2 3.
  destruct (files !! path) as [[c|]|] eqn:Hl.
  - unfold write_file. rewrite lookup_insert_eq, insert_insert_eq. reflexivity.
  - unfold write_file. rewrite Hl. reflexivity.
  - unfold write_file. rewrite lookup_insert_eq, insert_insert_eq. reflexivity.
Qed.

Lemma readFile_write_file (path : string) (data : bytes) (files : gmap string fs_node) :
  files !! path <> Some Unreadable ->
  readFile (write_file path data files) path = inr data.
Proof.
  intros Hok. unfold write_file, readFile.
  destruct (files !! path) as [[c|]|] eqn:Hl; try contradiction;
    rewrite lookup_insert_eq; reflexivity.
Qed.

Lemma exited_app (files : gmap string fs_node) (pend : list (string * bytes))
    (t l : list call) :
  exited (World files pend (t ++ l)) =
  exited (World files pend t) || existsb is_rejection l.
Proof. unfold exited. cbn [trace]. apply existsb_app. Qed.

Lemma exited_trace (w : world) (files : gmap string fs_node)
    (pend : list (string * bytes)) :
  exited (World files pend (trace w)) = exited w.
Proof. reflexivity. Qed.

Lemma run_exited (E : env) (v : variant) (events : list event) (w : world) :
  exited w = true -> run E v events w = ([], w).
Proof.
  intros Hx. induction events as [|e rest IH]; [reflexivity|].
  cbn [run]. unfold step. rewrite Hx, IH. reflexivity.
Qed.

Lemma upload_world (E : env) (v : variant) (body : option json) (c : bytes)
    (w : world) :
  canonical E v body = Some c ->
  fst (upload E v body w) = JsonHash (sha256_hex c) /\
  fs (snd (upload E v body w)) =
    (if (Z.of_nat (length c) <? sync_write_limit E)%Z
     then write_file (blob_path E v (sha256_hex c)) c (fs w) else fs w) /\
  pending (snd (upload E v body w)) =
    (if (Z.of_nat (length c) <? sync_write_limit E)%Z
     then pending w else pending w ++ [(blob_path E v (sha256_hex c), c)])%list /\
  exited (snd (upload E v body w)) =
    exited w ||
    ((Z.of_nat (length c) <? sync_write_limit E)%Z &&
     write_refused (blob_path E v (sha256_hex c)) (fs w)).
Proof.
  intros Hc. destruct (upload_success E v body c w Hc) as (buf & _ & _ & ->).
  cbn [fst snd]. split; [reflexivity|].
  destruct (Z.ltb_spec (Z.of_nat (length c)) (sync_write_limit E)).
  - rewrite start_write_short by lia. cbn [fs pending].
    split; [reflexivity|]. split; [reflexivity|].
    unfold exited. cbn [trace fs]. rewrite !existsb_app.
    destruct (write_refused _ _); cbn; rewrite ?orb_false_r; reflexivity.
  - rewrite start_write_long by lia. cbn [fs pending].
    split; [reflexivity|]. split; [reflexivity|].
    unfold exited. cbn [trace]. rewrite !existsb_app. cbn.
    rewrite !orb_false_r. reflexivity.
Qed.

(** The head of the large payload and its length. *)
Lemma decode_png_head (s : string) :
  Base64.decode (png_head_base64 +:+ s) = (png_signature ++ x00 :: Base64.decode s)%list.
Proof. reflexivity. Qed.

Lemma length_large (n : N) :
  Z.of_nat (length (base64_decode sample_env (large_base64 n)))
  = (9 + 3 * Z.of_N n)%Z.
Proof.
  change (base64_decode sample_env) with Base64.decode. unfold large_base64.
  rewrite decode_png_head. cbn [png_signature app length].
  rewrite !Nat2Z.inj_succ, length_decode_zeros. cbn [Base64.decode]. cbn. lia.
Qed.

Lemma payload_large (E : env) (n : N) :
  payload E (upload_body (large_base64 n))
  = Some (base64_decode E (large_base64 n)).
Proof.
  unfold large_base64. generalize (zeros_base64 n ""). intros s. reflexivity.
Qed.

Lemma canonical_large (v : variant) (n : N) :
  (9 + 3 * Z.of_N n <= MAX_FILE_SIZE)%Z ->
  canonical sample_env v (upload_body (large_base64 n))
  = Some (base64_decode sample_env (large_base64 n)).
Proof.
  intros Hn. unfold canonical. rewrite payload_large.
  destruct (Z.ltb_spec MAX_FILE_SIZE
              (Z.of_nat (length (base64_decode sample_env (large_base64 n)))))
    as [Hlt|_]; [rewrite length_large in Hlt; lia|].
  change (sharp sample_env v) with (sample_sharp v).
  change (base64_decode sample_env) with Base64.decode.
  unfold sample_sharp, large_base64. rewrite decode_png_head. reflexivity.
Qed.

(** C1, on the code: the handler starts the write with [Bun.write] and
    does not wait for it.  When the bytes to store are not fewer than the
    number [Bun.write] carries out within the call, the upload is answered
    with their digest while the files are those from before the request and
    the write is still in flight; a blob that was not stored before cannot
    be read at that moment. *)
Theorem upload_answers_before_write_lands :
  forall (E : env) (v : variant) (body : option json) (c : bytes) (w : world),
    canonical E v body = Some c ->
    (sync_write_limit E <= Z.of_nat (length c))%Z ->
    fst (upload E v body w) = JsonHash (sha256_hex c) /\
    fs (snd (upload E v body w)) = fs w /\
    pending (snd (upload E v body w))
      = (pending w ++ [(blob_path E v (sha256_hex c), c)])%list /\
    (fs w !! blob_path E v (sha256_hex c) = None ->
     readFile (fs (snd (upload E v body w))) (blob_path E v (sha256_hex c))
     = inl (ENOENT (blob_path E v (sha256_hex c)))).
Proof.
  intros E v body c w Hc Hlong.
  destruct (upload_world E v body c w Hc) as (Hr & Hfs & Hp & _).
  destruct (Z.ltb_spec (Z.of_nat (length c)) (sync_write_limit E)); [lia|].
  split; [exact Hr|]. split; [exact Hfs|]. split; [exact Hp|].
  intros Hnone. rewrite Hfs. unfold readFile. rewrite Hnone. reflexivity.
Qed.

Lemma upload_answers_before_write_lands_witness :
  fs (snd (upload sample_env Png (upload_body (large_base64 87382)) empty_world))
    = fs empty_world /\
  pending (snd (upload sample_env Png (upload_body (large_base64 87382)) empty_world))
    = (pending empty_world ++
       [(blob_path sample_env Png
           (sha256_hex (base64_decode sample_env (large_base64 87382))),
         base64_decode sample_env (large_base64 87382))])%list.
Proof.
  destruct (upload_answers_before_write_lands sample_env Png
              (upload_body (large_base64 87382))
              (base64_decode sample_env (large_base64 87382)) empty_world)
    as (_ & Hfs & Hp & _).
  - apply canonical_large. vm_compute. discriminate.
  - rewrite length_large. vm_compute. discriminate.
  - split; [exact Hfs | exact Hp].
Defined.

(** C6, on the code: when the bytes to store are not fewer than the number
    [Bun.write] carries out within the call, the upload of a blob that is
    not stored yet is answered with its digest, and the retrieval of that
    digest that follows, before the write in flight has landed, is answered
    404. *)
Theorem get_right_after_upload_misses :
  forall (E : env) (v : variant) (body : option json) (c : bytes) (w : world),
    canonical E v body = Some c ->
    (sync_write_limit E <= Z.of_nat (length c))%Z ->
    fs w !! blob_path E v (sha256_hex c) = None ->
    exited w = false ->
    fst (run E v [Upload body; Get (sha256_hex c +:+ "." +:+ extension v)] w)
    = [JsonHash (sha256_hex c); Text "Image not found" 404].
Proof.
  intros E v body c w Hc Hlong Hnone Hrun.
  destruct (upload_world E v body c w Hc) as (Hr & Hfs & _ & Hx).
  destruct (Z.ltb_spec (Z.of_nat (length c)) (sync_write_limit E)); [lia|].
  cbn [andb] in Hx. rewrite orb_false_r, Hrun in Hx.
  cbn [run]. unfold step. rewrite Hrun.
  destruct (upload E v body w) as [r w1]. cbn [fst snd] in *. subst r.
  rewrite Hx.
  pose proof (get_file_valid E v _ _ w1 (digest_key_matches v c)) as Hg.
  destruct (get_file E v _ w1) as [r2 w2]. injection Hg as -> _.
  rewrite Hfs. unfold readFile. rewrite Hnone. reflexivity.
Qed.

Lemma get_right_after_upload_misses_witness :
  fst (run sample_env Png
         [Upload (upload_body (large_base64 87382));
          Get (sha256_hex (base64_decode sample_env (large_base64 87382))
               +:+ "." +:+ extension Png)]
         empty_world)
  = [JsonHash (sha256_hex (base64_decode sample_env (large_base64 87382)));
     Text "Image not found" 404].
Proof.
  apply (get_right_after_upload_misses sample_env Png
           (upload_body (large_base64 87382))
           (base64_decode sample_env (large_base64 87382)) empty_world).
  - apply canonical_large. vm_compute. discriminate.
  - rewrite length_large. vm_compute. discriminate.
  - apply lookup_empty.
  - reflexivity.
Defined.

(** Once the write has landed, or when it was carried out within the call,
    the blob is served as it was written, with the content type of the
    server. *)
Lemma round_trip_once_landed (E : env) (v : variant) (body : option json)
    (c : bytes) (w : world) :
  canonical E v body = Some c ->
  pending w = [] ->
  exited w = false ->
  fs w !! blob_path E v (sha256_hex c) <> Some Unreadable ->
  fst (run E v [Upload body; Land 0; Get (sha256_hex c +:+ "." +:+ extension v)] w)
  = [JsonHash (sha256_hex c); Binary c 200 (contentType v)].
Proof.
  intros Hc Hq Hrun Hok.
  destruct (upload_world E v body c w Hc) as (Hr & Hfs & Hp & Hx).
  assert (Hnr : write_refused (blob_path E v (sha256_hex c)) (fs w) = false).
  { unfold write_refused. destruct (fs w !! _) as [[|]|]; congruence. }
  rewrite Hnr, andb_false_r, orb_false_r, Hrun in Hx.
  cbn [run]. unfold step. rewrite Hrun.
  destruct (upload E v body w) as [r w1]. cbn [fst snd] in *. subst r.
  rewrite Hx.
  assert (Hland : exited (land 0 w1) = false /\
                  fs (land 0 w1) = write_file (blob_path E v (sha256_hex c)) c (fs w)).
  { unfold land. rewrite Hx, Hp, Hq.
    destruct (Z.ltb_spec (Z.of_nat (length c)) (sync_write_limit E)).
    - cbn [lookup list_lookup]. auto.
    - cbn [app lookup list_lookup]. unfold carry_out. rewrite Hfs, Hnr.
      cbn [fs]. rewrite app_nil_r. split; [exact Hx | reflexivity]. }
  destruct Hland as [Hx2 Hfs2]. rewrite Hx2.
  pose proof (get_file_valid E v _ _ (land 0 w1) (digest_key_matches v c)) as Hg.
  destruct (get_file E v _ (land 0 w1)) as [r2 w2]. injection Hg as -> _.
  rewrite Hfs2, readFile_write_file by exact Hok. reflexivity.
Qed.

(** C9, on the code: a write that the file system refuses is a failure of
    the upload that the handler never sees.  The upload is answered with
    the digest and status 200, not 400; the promise of the write is
    rejected with nothing awaiting it, at once for a write carried out
    within the call and at its landing for a longer one, and the process
    exits: no later request is answered. *)
Theorem refused_write_answered_200 :
  forall (E : env) (v : variant) (body : option json) (c : bytes) (w : world),
    canonical E v body = Some c ->
    fs w !! blob_path E v (sha256_hex c) = Some Unreadable ->
    exited w = false ->
    fst (upload E v body w) = JsonHash (sha256_hex c) /\
    status_of (fst (upload E v body w)) = 200%Z /\
    ((Z.of_nat (length c) < sync_write_limit E)%Z ->
     exited (snd (upload E v body w)) = true /\
     forall events : list event,
       fst (run E v (Upload body :: events) w) = [JsonHash (sha256_hex c)]) /\
    ((sync_write_limit E <= Z.of_nat (length c))%Z ->
     exited (land (length (pending w)) (snd (upload E v body w))) = true).
Proof.
  intros E v body c w Hc Hblocked Hrun.
  destruct (upload_world E v body c w Hc) as (Hr & Hfs & Hp & Hx).
  assert (Hrf : write_refused (blob_path E v (sha256_hex c)) (fs w) = true).
  { unfold write_refused. rewrite Hblocked. reflexivity. }
  rewrite Hrf, andb_true_r, Hrun in Hx. cbn [orb] in Hx.
  split; [exact Hr|]. split; [rewrite Hr; reflexivity|]. split.
  - intros Hshort.
    destruct (Z.ltb_spec (Z.of_nat (length c)) (sync_write_limit E)); [|lia].
    split; [exact Hx|]. intros events. cbn [run]. unfold step. rewrite Hrun.
    destruct (upload E v body w) as [r w1]. cbn [fst snd] in *. subst r.
    rewrite (run_exited E v events w1 Hx). reflexivity.
  - intros Hlong.
    destruct (Z.ltb_spec (Z.of_nat (length c)) (sync_write_limit E)); [lia|].
    unfold land. rewrite Hx, Hp.
    rewrite lookup_app_r, Nat.sub_diag by lia. cbn [lookup list_lookup].
    unfold carry_out. rewrite Hfs, Hrf. rewrite exited_app. cbn.
    apply orb_true_r.
Qed.

Lemma refused_write_answered_200_witness :
  fst (run sample_env Png
         [Upload (upload_body pixel_base64); Get (pixel_hash +:+ ".png");
          Upload (upload_body pixel_base64)]
         (World {[ blob_path sample_env Png
                     (sha256_hex (base64_decode sample_env pixel_base64))
                   := Unreadable ]} [] []))
  = [JsonHash (sha256_hex (base64_decode sample_env pixel_base64))].
Proof.
  destruct (refused_write_answered_200 sample_env Png (upload_body pixel_base64)
              (base64_decode sample_env pixel_base64)
              (World {[ blob_path sample_env Png
                          (sha256_hex (base64_decode sample_env pixel_base64))
                        := Unreadable ]} [] []))
    as (_ & _ & Hshort & _).
  - vm_compute. reflexivity.
  - apply lookup_singleton_eq.
  - reflexivity.
  - apply Hshort. vm_compute. reflexivity.
Defined.

(** ** Uploading the same blob again *)

Section OneBlob.

Variables (path : string) (data : bytes) (files : gmap string fs_node).

Lemma one_blob_land (i : nat) (w : world) :
  one_blob path data files w -> one_blob path data files (land i w).
Proof.
  intros [Hall Hfs]. unfold land.
  destruct (exited w); [split; assumption|].
  destruct (pending w !! i) as [[p d]|] eqn:Hi; [|split; assumption].
  assert (Hpd : (p, d) = (path, data)).
  { eapply (proj1 (Forall_lookup _ _) Hall). exact Hi. }
  injection Hpd as -> ->.
  unfold carry_out. split; cbn [pending fs].
  - apply Forall_delete. exact Hall.
  - right. destruct Hfs as [[-> _] | ->]; [reflexivity | apply write_file_idem].
Qed.

Lemma one_blob_lands (schedule : list nat) (w : world) :
  one_blob path data files w -> one_blob path data files (lands schedule w).
Proof.
  revert w. induction schedule as [|i schedule IH]; intros w Hw; [exact Hw|].
  cbn [lands fold_left]. apply IH, one_blob_land, Hw.
Qed.

Lemma one_blob_quiescent (w : world) :
  one_blob path data files w -> pending w = [] ->
  fs w = write_file path data files.
Proof. intros [_ [[_ Hne] | Hfs]] Hq; [contradiction | exact Hfs]. Qed.

Lemma one_blob_files (w : world) :
  one_blob path data files w ->
  fs w = files \/ fs w = write_file path data files.
Proof. intros [_ [[Hfs _] | Hfs]]; auto. Qed.

End OneBlob.

Lemma one_blob_first_upload (E : env) (v : variant) (body : option json)
    (c : bytes) (w : world) :
  canonical E v body = Some c -> pending w = [] ->
  one_blob (blob_path E v (sha256_hex c)) c (fs w) (snd (upload E v body w)).
Proof.
  intros Hc Hq. destruct (upload_world E v body c w Hc) as (_ & Hfs & Hp & _).
  unfold one_blob. rewrite Hfs, Hp, Hq.
  destruct (_ <? _)%Z; cbn [app].
  - split; [constructor | right; reflexivity].
  - split; [repeat constructor | left; split; [reflexivity | discriminate]].
Qed.

Lemma one_blob_next_upload (E : env) (v : variant) (body : option json)
    (c : bytes) (files : gmap string fs_node) (w : world) :
  canonical E v body = Some c ->
  one_blob (blob_path E v (sha256_hex c)) c files w ->
  one_blob (blob_path E v (sha256_hex c)) c files (snd (upload E v body w)).
Proof.
  intros Hc [Hall Hfs]. destruct (upload_world E v body c w Hc) as (_ & Hf & Hp & _).
  unfold one_blob. rewrite Hf, Hp.
  destruct (_ <? _)%Z.
  - split; [exact Hall|]. right.
    destruct Hfs as [[-> _] | ->]; [reflexivity | apply write_file_idem].
  - split; [apply Forall_app; split; [exact Hall | repeat constructor]|].
    destruct Hfs as [[Hfs _] | Hfs]; [left | right; exact Hfs].
    split; [exact Hfs|]. intros Hnil. apply app_eq_nil in Hnil as [_ Hnil].
    discriminate Hnil.
Qed.

(** C7: two uploads that canonicalize to the same bytes are answered with
    the same digest, that of the bytes.  Starting with no write in flight,
    and whenever the second request arrives and in whatever order the writes
    land, the files are at every moment the initial ones or the initial ones
    with the one blob written under its digest; once no write is in flight,
    after the first upload alone or after both, they are the initial ones
    with that blob written: the second upload adds nothing. *)
Theorem dedup_idempotent :
  forall (E : env) (v : variant) (body1 body2 : option json) (c : bytes)
         (w : world) (s1 s2 : list nat),
    pending w = [] ->
    canonical E v body1 = Some c ->
    canonical E v body2 = Some c ->
    let p := blob_path E v (sha256_hex c) in
    let w1 := lands s1 (snd (upload E v body1 w)) in
    let w2 := lands s2 (snd (upload E v body2 w1)) in
    fst (upload E v body1 w) = JsonHash (sha256_hex c) /\
    fst (upload E v body2 w1) = JsonHash (sha256_hex c) /\
    (fs w2 = fs w \/ fs w2 = write_file p c (fs w)) /\
    (pending w1 = [] -> fs w1 = write_file p c (fs w)) /\
    (pending w2 = [] -> fs w2 = write_file p c (fs w)) /\
    (pending w1 = [] -> pending w2 = [] -> fs w2 = fs w1).
Proof.
  intros E v body1 body2 c w s1 s2 Hq Hc1 Hc2 p w1 w2.
  assert (H1 : one_blob p c (fs w) w1).
  { apply one_blob_lands, one_blob_first_upload; assumption. }
  assert (H2 : one_blob p c (fs w) w2).
  { apply one_blob_lands, one_blob_next_upload; assumption. }
  split.
  { destruct (upload_success E v body1 c w Hc1) as (buf & _ & _ & ->). reflexivity. }
  split.
  { destruct (upload_success E v body2 c w1 Hc2) as (buf & _ & _ & ->). reflexivity. }
  split; [exact (one_blob_files _ _ _ _ H2)|].
  split; [exact (one_blob_quiescent _ _ _ _ H1)|].
  split; [exact (one_blob_quiescent _ _ _ _ H2)|].
  intros Hq1 Hq2.
  rewrite (one_blob_quiescent _ _ _ _ H1 Hq1), (one_blob_quiescent _ _ _ _ H2 Hq2).
  reflexivity.
Qed.

Lemma dedup_idempotent_witness :
  let c := Base64.decode pixel_base64 in
  let wrapped := upload_body ("data:image/png;base64," +:+ pixel_base64) in
  let w1 := lands [] (snd (upload sample_env Png (upload_body pixel_base64) empty_world)) in
  let w2 := lands [0; 0]%nat (snd (upload sample_env Png wrapped w1)) in
  fst (upload sample_env Png (upload_body pixel_base64) empty_world)
    = JsonHash (sha256_hex c) /\
  fst (upload sample_env Png wrapped w1) = JsonHash (sha256_hex c) /\
  fs w2 = write_file (blob_path sample_env Png (sha256_hex c)) c (fs empty_world).
Proof.
  intros c wrapped w1 w2.
  destruct (dedup_idempotent sample_env Png (upload_body pixel_base64) wrapped c
              empty_world [] [0; 0]%nat)
    as (Hh1 & Hh2 & _ & _ & Hdone & _);
    [reflexivity | vm_compute; reflexivity | vm_compute; reflexivity |].
  split; [exact Hh1|]. split; [exact Hh2|].
  apply Hdone. vm_compute. reflexivity.
Defined.

(** * Further properties of the handlers *)

(** ** Strings *)

Lemma string_length_app (s t : string) :
  String.length (s +:+ t) = (String.length s + String.length t)%nat.
Proof.
  induction s as [|a s IH]; cbn [String.append String.length]; [reflexivity|].
  rewrite IH. reflexivity.
Qed.

Lemma string_app_inv_same_length (s1 s2 t1 t2 : string) :
  String.length s1 = String.length s2 ->
  s1 +:+ t1 = s2 +:+ t2 -> s1 = s2 /\ t1 = t2.
Proof.
  revert s2. induction s1 as [|a s1 IH]; intros [|b s2] Hlen Heq;
    cbn [String.append String.length] in *; try discriminate; [auto|].
  injection Heq as -> Heq. injection Hlen as Hlen.
  destruct (IH s2 Hlen Heq) as [-> ->]. auto.
Qed.

Lemma string_app_inv_tail (s1 s2 t : string) :
  s1 +:+ t = s2 +:+ t -> s1 = s2.
Proof.
  intros Heq. apply (string_app_inv_same_length s1 s2 t t); [|exact Heq].
  apply (f_equal String.length) in Heq. rewrite !string_length_app in Heq. lia.
Qed.

Lemma blob_path_inj (E : env) (v : variant) (h1 h2 : string) :
  blob_path E v h1 = blob_path E v h2 -> h1 = h2.
Proof.
  unfold blob_path. intros Heq.
  apply (inj (String.append (imagesDir E))) in Heq.
  apply (inj (String.append "/")) in Heq.
  apply string_app_inv_tail in Heq. exact Heq.
Qed.

Lemma match_file_rebuilds (ext file h : string) :
  match_file ext file = Some h -> h +:+ "." +:+ ext = file.
Proof. intros H. apply match_file_Some in H as (-> & _). reflexivity. Qed.

(** ** What the upload handler answers, and when *)

Lemma upload_not_json (E : env) (v : variant) (w : world) :
  upload E v None w = (catch_response, w).
Proof. reflexivity. Qed.

Lemma upload_falsy (E : env) (v : variant) (j : json) (d : option json) (w : world) :
  fst (destructure_data j w) = Returned d -> truthy d = false ->
  upload E v (Some j) w = (Text "Missing image data" 400, w).
Proof.
  intros Hd Ht. unfold upload, upload_try, try_catch, bind.
  cbn [req_json ret].
  destruct j as [ | | | | |fields]; cbn in Hd |- *; try discriminate Hd;
    injection Hd as <-; cbn; try reflexivity; rewrite Ht; reflexivity.
Qed.

Lemma upload_truthy (E : env) (v : variant) (j : json) (d : option json) (w : world) :
  fst (destructure_data j w) = Returned d -> truthy d = true ->
  upload E v (Some j) w =
  match d with
  | Some (JStr s) =>
      try_catch (check_and_store E v (base64_decode E (replace_data_uri s)))
                (fun _ => catch_response) w
  | _ => (catch_response, w)
  end.
Proof.
  intros Hd Ht. unfold upload, upload_try, try_catch, bind.
  cbn [req_json ret].
  destruct j as [ | | | | |fields]; cbn in Hd |- *; try discriminate Hd;
    injection Hd as <-; try discriminate Ht.
  rewrite Ht. cbn.
  destruct (get_field "data" fields) as [[ | | |s| | ]|]; reflexivity.
Qed.

Lemma check_and_store_answers (E : env) (v : variant) (buf : bytes) (w : world) :
  fst (try_catch (check_and_store E v buf) (fun _ => catch_response) w) =
  if (MAX_FILE_SIZE <? Z.of_nat (length buf))%Z
  then Text "Image file too large, maximum allowed size is 10MB" 400
  else match sharp E v buf with
       | Some c => JsonHash (sha256_hex c)
       | None => catch_response
       end.
Proof.
  destruct (Z.ltb_spec MAX_FILE_SIZE (Z.of_nat (length buf))).
  - rewrite check_too_large by lia. reflexivity.
  - rewrite check_within, store_result by lia.
    destruct (sharp E v buf); reflexivity.
Qed.

(** X1: The answer "Missing image data" is given exactly when the body is JSON
    other than [null] and its [data], read by destructuring, is undefined or
    falsy: absent, [null], [false], [0], [NaN] or the empty string.  The
    world is then left as it was. *)
Theorem upload_missing_iff :
  forall (E : env) (v : variant) (body : option json) (w : world),
    fst (upload E v body w) = Text "Missing image data" 400 <->
    exists (j : json) (d : option json),
      body = Some j /\ fst (destructure_data j w) = Returned d /\ truthy d = false.
Proof.
  intros E v body w. split.
  - destruct body as [j|]; [|discriminate].
    destruct (destructure_data j w) as [[d|e] w'] eqn:Hd.
    + destruct (truthy d) eqn:Ht; [|intros _; exists j, d; rewrite Hd; auto].
      rewrite (upload_truthy E v j d w) by (rewrite ?Hd; auto).
      destruct d as [[ | | |s| | ]|]; try discriminate.
      rewrite check_and_store_answers.
      destruct (_ <? _)%Z; [discriminate|]. destruct (sharp _ _ _); discriminate.
    + destruct j; cbn in Hd; try discriminate Hd. discriminate.
  - intros (j & d & -> & Hd & Ht). rewrite (upload_falsy E v j d w Hd Ht).
    reflexivity.
Qed.

(** X2: A [data] that is truthy and not a string (a number, [true], an array,
    an object) has no [replace] method: the call throws, the handler answers
    with the text of its [catch] block, and neither the image library nor
    the file system is called. *)
Theorem upload_data_not_a_string :
  forall (E : env) (v : variant) (fields : list (string * json)) (d : json)
         (w : world),
    get_field "data" fields = Some d ->
    truthy (Some d) = true ->
    (forall s : string, d <> JStr s) ->
    upload E v (Some (JObj fields)) w = (catch_response, w).
Proof.
  intros E v fields d w Hd Ht Hns.
  rewrite (upload_truthy E v (JObj fields) (Some d) w); [|cbn; rewrite Hd|]; auto.
  destruct d as [ | | |s| | ]; try reflexivity. destruct (Hns s). reflexivity.
Qed.

Lemma upload_data_not_a_string_witness :
  upload sample_env Avif (Some (JObj [("data", JNum 42)])) empty_world
    = (catch_response, empty_world) /\
  upload sample_env Avif (Some (JObj [("data", JArr [])])) empty_world
    = (catch_response, empty_world).
Proof.
  split.
  - apply (upload_data_not_a_string sample_env Avif [("data", JNum 42)] (JNum 42));
      [reflexivity | reflexivity | discriminate].
  - apply (upload_data_not_a_string sample_env Avif [("data", JArr [])] (JArr []));
      [reflexivity | reflexivity | discriminate].
Defined.

(** X3: The text of the [catch] block is the answer in exactly four cases: the
    body is not JSON; the body is [null]; [data] is truthy and not a string;
    or the payload is within the size ceiling and the image transform
    rejects it. *)
Theorem upload_catch_causes :
  forall (E : env) (v : variant) (body : option json) (w : world),
    fst (upload E v body w) = catch_response <->
    body = None \/
    body = Some JNull \/
    (exists (fields : list (string * json)) (d : json),
       body = Some (JObj fields) /\ get_field "data" fields = Some d /\
       truthy (Some d) = true /\ forall s : string, d <> JStr s) \/
    (exists buf : bytes,
       payload E body = Some buf /\
       (Z.of_nat (length buf) <= MAX_FILE_SIZE)%Z /\ sharp E v buf = None).
Proof.
  intros E v body w. split.
  - destruct body as [j|]; [|auto].
    destruct j as [ |b|x|s|items|fields]; auto;
      try (rewrite (upload_falsy E v _ None w) by reflexivity; discriminate).
    destruct (truthy (get_field "data" fields)) eqn:Ht;
      [|rewrite (upload_falsy E v _ (get_field "data" fields) w) by auto;
        discriminate].
    rewrite (upload_truthy E v _ (get_field "data" fields) w) by auto.
    destruct (get_field "data" fields) as [d|] eqn:Hd; [|discriminate Ht].
    destruct d as [ |b|x|s|items|fields'];
      try (intros _; right; right; left; exists fields; eexists;
           repeat split; eauto; discriminate).
    rewrite check_and_store_answers.
    destruct (Z.ltb_spec MAX_FILE_SIZE
                (Z.of_nat (length (base64_decode E (replace_data_uri s)))));
      [discriminate|].
    destruct (sharp E v _) eqn:Hs; [discriminate|]. intros _.
    right; right; right. exists (base64_decode E (replace_data_uri s)).
    cbn [payload]. rewrite Hd. cbn [truthy] in Ht.
    destruct (String.eqb s ""); [discriminate Ht|]. auto.
  - intros [-> | [-> | [(fields & d & -> & Hd & Ht & Hns) | (buf & Hp & Hlen & Hs)]]];
      try reflexivity.
    + rewrite (upload_truthy E v (JObj fields) (Some d) w);
        [|cbn; rewrite Hd|]; auto.
      destruct d as [ | | |s| | ]; try reflexivity. destruct (Hns s). reflexivity.
    + rewrite (upload_payload E v body buf w Hp), check_within, store_result, Hs
        by exact Hlen.
      reflexivity.
Qed.



(** X5: Every digest the upload handler returns is a key the retrieval handler
    of the same server accepts, and the write it makes, of the bytes whose
    digest it returns, goes to the very path that retrieval reads for that
    key, a direct child of the images folder. *)
Theorem returned_hash_is_a_key :
  forall (E : env) (v : variant) (body : option json) (w : world) (h : string),
    fst (upload E v body w) = JsonHash h ->
    match_file (extension v) (h +:+ "." +:+ extension v) = Some h /\
    count_char "/" (h +:+ "." +:+ extension v) = 0%nat /\
    exists (c buf : bytes) (rest : list call),
      h = sha256_hex c /\
      trace (snd (upload E v body w))
        = (trace w ++
           CallSharp buf
           :: CallBunWrite (imagesDir E +:+ "/" +:+ h +:+ "." +:+ extension v) c
           :: rest)%list /\
      trace (snd (get_file E v (h +:+ "." +:+ extension v) w))
        = (trace w ++
           [CallReadFile (imagesDir E +:+ "/" +:+ h +:+ "." +:+ extension v)])%list.
Proof.
  intros E v body w h Hup.
  destruct (upload_JsonHash_inv E v body w h Hup) as (c & Hc & ->).
  pose proof (digest_key_matches v c) as Hm.
  split; [exact Hm|]. split.
  { assert (Hk : key_format (extension v) (sha256_hex c +:+ "." +:+ extension v))
      by (apply match_file_accepts; rewrite Hm; eauto).
    exact (proj1 (key_format_shape v _ Hk)). }
  destruct (upload_success E v body c w Hc) as (buf & _ & _ & ->).
  destruct (start_write_trace E (blob_path E v (sha256_hex c)) c
              (World (fs w) (pending w) (trace w ++ [CallSharp buf])))
    as [rest Htr].
  exists c, buf, rest. split; [reflexivity|]. split.
  - cbn [snd]. rewrite Htr. cbn [trace]. rewrite <- app_assoc. reflexivity.
  - rewrite (get_file_valid E v _ _ w Hm). reflexivity.
Qed.

Lemma returned_hash_is_a_key_witness :
  match_file (extension Png) (pixel_hash +:+ "." +:+ extension Png) = Some pixel_hash /\
  count_char "/" (pixel_hash +:+ "." +:+ extension Png) = 0%nat.
Proof.
  destruct (returned_hash_is_a_key sample_env Png (upload_body pixel_base64)
              empty_world pixel_hash) as (Hm & Hc & _); [vm_compute; reflexivity|].
  split; [exact Hm | exact Hc].
Defined.

(** X6: With or without the PNG data URI prefix an upload is handled in the
    same way: same answer, same calls, same write.  The bare text must not
    be empty, which would count as missing data, and must not itself begin
    with the prefix, which would then be taken off. *)
Theorem wrapped_upload_same_as_bare :
  forall (E : env) (v : variant) (rest : string) (w : world),
    rest <> "" ->
    strip_prefix data_uri_prefix rest = None ->
    upload E v (upload_body (data_uri_prefix +:+ rest)) w
    = upload E v (upload_body rest) w.
Proof.
  intros E v rest w Hne Hbare.
  rewrite (upload_payload E v (upload_body (data_uri_prefix +:+ rest))
             (base64_decode E rest) w) by reflexivity.
  rewrite (upload_payload E v (upload_body rest) (base64_decode E rest) w);
    [reflexivity|].
  cbn [payload upload_body get_field]. cbn [String.eqb Ascii.eqb Bool.eqb].
  destruct (String.eqb_spec rest "") as [|_]; [contradiction|].
  unfold replace_data_uri. rewrite Hbare. reflexivity.
Qed.

Lemma wrapped_upload_same_as_bare_witness :
  upload sample_env Png (upload_body (data_uri_prefix +:+ pixel_base64)) empty_world
  = upload sample_env Png (upload_body pixel_base64) empty_world.
Proof.
  apply (wrapped_upload_same_as_bare sample_env Png pixel_base64 empty_world).
  - discriminate.
  - reflexivity.
Defined.

(** ** What the retrieval handler answers, and what it touches *)

(** X7: A well-formed key whose path holds a regular file is answered 200 with
    the bytes of that file and the content type of the server.  The bytes
    are not hashed again: what lies at the path is served, whether or not
    its digest is the key. *)
Theorem get_serves_what_is_stored :
  forall (E : env) (v : variant) (file hash : string) (c : bytes) (w : world),
    match_file (extension v) file = Some hash ->
    fs w !! blob_path E v hash = Some (Regular c) ->
    fst (get_file E v file w) = Binary c 200 (contentType v).
Proof.
  intros E v file hash c w Hm Hfs.
  rewrite (get_file_valid E v file hash w Hm). unfold readFile. rewrite Hfs.
  reflexivity.
Qed.

Lemma get_serves_what_is_stored_witness :
  fst (get_file sample_env Avif "00ff.avif"
         (World {[ "/srv/images/00ff.avif" := Regular (bytes_of_string "hi") ]} [] []))
  = Binary (bytes_of_string "hi") 200 "image/avif".
Proof.
  apply (get_serves_what_is_stored sample_env Avif "00ff.avif" "00ff").
  - vm_compute. reflexivity.
  - apply lookup_singleton_eq.
Defined.

(** X8: Retrieval only reads.  Whatever the name asked for, the files and the
    pending writes are left as they are and the status is 200, 400 or 404.
    The handler makes no call at all, or one read, and the path it reads is
    the images folder, a slash and the name as it was asked for, which then
    holds no slash, no backslash and a single dot. *)
Theorem get_file_only_reads :
  forall (E : env) (v : variant) (file : string) (w : world),
    fs (snd (get_file E v file w)) = fs w /\
    pending (snd (get_file E v file w)) = pending w /\
    (status_of (fst (get_file E v file w)) = 200%Z \/
     status_of (fst (get_file E v file w)) = 400%Z \/
     status_of (fst (get_file E v file w)) = 404%Z) /\
    (trace (snd (get_file E v file w)) = trace w \/
     trace (snd (get_file E v file w))
       = (trace w ++ [CallReadFile (imagesDir E +:+ "/" +:+ file)])%list /\
     count_char "/" file = 0%nat /\ count_char "\" file = 0%nat /\
     count_char "." file = 1%nat).
Proof.
  intros E v file w.
  destruct (match_file (extension v) file) as [h|] eqn:Hm.
  - rewrite (get_file_valid E v file h w Hm). cbn [fst snd fs pending trace].
    split; [reflexivity|]. split; [reflexivity|]. split.
    + destruct (readFile _ _); cbn [status_of]; auto.
    + right. unfold blob_path. rewrite (match_file_rebuilds _ _ _ Hm).
      split; [reflexivity|].
      apply (key_format_shape v), match_file_accepts. rewrite Hm. eauto.
  - rewrite (get_file_invalid E v file w Hm). cbn [fst snd status_of].
    repeat split; auto.
Qed.

(** X9: No name is a key of both servers: what one accepts the other answers
    with status 400. *)
Theorem key_spaces_disjoint :
  forall (E : env) (file : string) (w : world),
    get_file E Avif file w = (Text "Invalid image URL" 400, w) \/
    get_file E Png file w = (Text "Invalid image URL" 400, w).
Proof.
  intros E file w.
  destruct (match_file (extension Avif) file) as [h1|] eqn:H1;
    [|left; apply get_file_invalid, H1].
  right. apply get_file_invalid.
  destruct (match_file (extension Png) file) as [h2|] eqn:H2; [|reflexivity].
  exfalso. unfold match_file in H1, H2. destruct (span_hex file) as [h t].
  destruct (String.eqb h ""); [discriminate|].
  destruct (String.eqb t ("." +:+ extension Avif)) eqn:Ht; [|discriminate].
  apply String.eqb_eq in Ht. subst t. discriminate H2.
Qed.

(** ** The store stays content-addressed *)

Lemma lookup_write_file_regular (p q : string) (c c' : bytes)
    (files : gmap string fs_node) :
  write_file p c files !! q = Some (Regular c') ->
  (q = p /\ c' = c) \/ files !! q = Some (Regular c').
Proof.
  unfold write_file. destruct (files !! p) as [[d|]|] eqn:Hp; auto;
    rewrite lookup_insert; case_decide; auto; intros [= ->]; auto.
Qed.

Lemma addressed_land (E : env) (v : variant) (i : nat) (w : world) :
  addressed E v w -> addressed E v (land i w).
Proof.
  intros [Hfs Hpend]. unfold land.
  destruct (exited w); [split; assumption|].
  destruct (pending w !! i) as [[p d]|] eqn:Hi; [|split; assumption].
  pose proof (proj1 (Forall_lookup _ _) Hpend i (p, d) Hi) as Hpd.
  cbn [fst snd] in Hpd. unfold carry_out. split; cbn [fs pending].
  - intros q c Hq. apply lookup_write_file_regular in Hq as [[-> ->] | Hq]; auto.
  - apply Forall_delete. exact Hpend.
Qed.

Lemma addressed_upload (E : env) (v : variant) (body : option json) (w : world) :
  addressed E v w -> addressed E v (snd (upload E v body w)).
Proof.
  intros [Hfs Hpend]. destruct (canonical E v body) as [c|] eqn:Hc.
  - destruct (upload_world E v body c w Hc) as (_ & Hf & Hp & _).
    unfold addressed. rewrite Hf, Hp. destruct (_ <? _)%Z.
    + split; [|exact Hpend]. intros q c' Hq.
      apply lookup_write_file_regular in Hq as [[-> ->] | Hq]; auto.
    + split; [exact Hfs|].
      apply Forall_app. split; [exact Hpend|]. repeat constructor.
  - destruct (upload_failure E v body w Hc) as (msg & _ & Hf & Hp).
    split; [rewrite Hf; exact Hfs | rewrite Hp; exact Hpend].
Qed.

Lemma get_file_world (E : env) (v : variant) (file : string) (w : world) :
  fs (snd (get_file E v file w)) = fs w /\
  pending (snd (get_file E v file w)) = pending w.
Proof.
  destruct (match_file (extension v) file) as [h|] eqn:Hm.
  - rewrite (get_file_valid E v file h w Hm). auto.
  - rewrite (get_file_invalid E v file w Hm). auto.
Qed.

Lemma addressed_step (E : env) (v : variant) (e : event) (w : world) :
  addressed E v w -> addressed E v (snd (step E v w e)).
Proof.
  intros Hw. unfold step. destruct (exited w); [exact Hw|].
  destruct e as [body|file|i].
  - pose proof (addressed_upload E v body w Hw) as H.
    destruct (upload E v body w). exact H.
  - destruct (get_file_world E v file w) as [Hf Hp].
    destruct (get_file E v file w) as [r w']. cbn [snd] in *.
    destruct Hw as [Hfs Hpend]. split; [rewrite Hf; exact Hfs | rewrite Hp; exact Hpend].
  - apply addressed_land, Hw.
Qed.

Lemma run_cons_world (E : env) (v : variant) (e : event) (rest : list event)
    (w : world) :
  snd (run E v (e :: rest) w) = snd (run E v rest (snd (step E v w e))).
Proof.
  cbn [run]. destruct (step E v w e) as [r w']. cbn [snd].
  destruct (run E v rest w'). reflexivity.
Qed.

Lemma addressed_empty (E : env) (v : variant) : addressed E v empty_world.
Proof.
  split; cbn [fs pending empty_world].
  - intros p c H. rewrite lookup_empty in H. discriminate H.
  - constructor.
Qed.

(** X10: Content addressing is an invariant of the server: if every regular
    file and every write in flight holds bytes under the path of their own
    digest, this is still so after any sequence of uploads, retrievals and
    landings of writes, in any order. *)
Theorem run_keeps_addressed :
  forall (E : env) (v : variant) (events : list event) (w : world),
    addressed E v w -> addressed E v (snd (run E v events w)).
Proof.
  intros E v events. induction events as [|e rest IH]; intros w Hw; [exact Hw|].
  rewrite run_cons_world. apply IH, addressed_step, Hw.
Qed.

Lemma run_keeps_addressed_witness :
  addressed sample_env Png
    (snd (run sample_env Png
            [Upload (upload_body pixel_base64); Get "00.png"; Land 0;
             Upload (upload_body "AAAA")]
            empty_world)).
Proof.
  apply (run_keeps_addressed sample_env Png _ empty_world).
  apply addressed_empty.
Defined.

(** X11: Starting from an empty images folder, whatever requests are made and
    whenever the writes land, a retrieval that is answered with bytes is
    answered under the digest of those very bytes, with status 200 and the
    content type of the server. *)
Theorem served_bytes_match_key :
  forall (E : env) (v : variant) (events : list event) (file : string)
         (c : bytes) (status : Z) (ct : string),
    fst (get_file E v file (snd (run E v events empty_world))) = Binary c status ct ->
    file = sha256_hex c +:+ "." +:+ extension v /\
    status = 200%Z /\ ct = contentType v.
Proof.
  intros E v events file c status ct Hget.
  destruct (run_keeps_addressed E v events empty_world (addressed_empty E v))
    as [Hfs _].
  destruct (match_file (extension v) file) as [h|] eqn:Hm.
  - rewrite (get_file_valid E v file h _ Hm) in Hget. cbn [fst] in Hget.
    unfold readFile in Hget.
    destruct (fs _ !! blob_path E v h) as [[c'|]|] eqn:Hl; try discriminate Hget.
    injection Hget as -> <- <-.
    apply Hfs, blob_path_inj in Hl. subst h.
    rewrite (match_file_rebuilds _ _ _ Hm). auto.
  - rewrite (get_file_invalid E v file _ Hm) in Hget. discriminate Hget.
Qed.

Lemma served_bytes_match_key_witness :
  pixel_hash +:+ ".png" = sha256_hex (Base64.decode pixel_base64) +:+ "." +:+ extension Png.
Proof.
  apply (served_bytes_match_key sample_env Png
           [Upload (upload_body pixel_base64); Land 0] (pixel_hash +:+ ".png")
           (Base64.decode pixel_base64) 200 "image/png").
  vm_compute. reflexivity.
Defined.

(** X12: Two blobs get the same file name exactly when their SHA-256 hashes are
    equal: neither the hexadecimal writing nor the building of the path
    loses anything of the hash. *)
Theorem same_path_iff_same_hash :
  forall (E : env) (v : variant) (a b : bytes),
    blob_path E v (sha256_hex a) = blob_path E v (sha256_hex b) <->
    SHA256.hash a = SHA256.hash b.
Proof.
  intros E v a b. unfold sha256_hex. split.
  - intros H. apply blob_path_inj in H. apply (f_equal Hex.decode) in H.
    rewrite !hex_decode_encode in H. apply (inj Some) in H. exact H.
  - intros ->. reflexivity.
Qed.

(** ** Once the writes have landed *)

Lemma write_file_keeps_openable (p q : string) (d : bytes)
    (files : gmap string fs_node) :
  files !! p <> Some Unreadable -> write_file q d files !! p <> Some Unreadable.
Proof.
  intros Hok. unfold write_file.
  destruct (files !! q) as [[c|]|]; try exact Hok;
    rewrite lookup_insert; case_decide; try exact Hok; discriminate.
Qed.

Lemma write_refused_false (p : string) (files : gmap string fs_node) :
  files !! p <> Some Unreadable -> write_refused p files = false.
Proof.
  intros Hok. unfold write_refused. destruct (files !! p) as [[c|]|]; congruence.
Qed.

Lemma lands_in_order (n : nat) (w : world) :
  length (pending w) = n ->
  exited w = false ->
  Forall (fun pw => fs w !! fst pw <> Some Unreadable) (pending w) ->
  lands (repeat 0%nat n) w = World (write_all (pending w) (fs w)) [] (trace w).
Proof.
  revert w. induction n as [|n IH]; intros [files pend tr] Hlen Hrun Hok;
    cbn [pending fs trace] in *.
  - destruct pend; [reflexivity | discriminate Hlen].
  - destruct pend as [|[p d] pend]; [discriminate Hlen|].
    injection Hlen as Hlen. apply Forall_cons in Hok as [Hp Hok].
    cbn [fst] in Hp. cbn [repeat lands fold_left].
    change (fold_left (fun w i => land i w) (repeat 0%nat n) ?x)
      with (lands (repeat 0%nat n) x).
    unfold land at 1. rewrite Hrun.
    cbn [pending lookup list_lookup delete list_delete]. unfold carry_out.
    cbn [fs trace]. rewrite (write_refused_false _ _ Hp), app_nil_r.
    rewrite IH; [reflexivity | exact Hlen | exact Hrun |].
    cbn [pending fs]. eapply Forall_impl; [exact Hok|].
    intros pw Hpw. apply write_file_keeps_openable, Hpw.
Qed.

Lemma write_all_keeps_blob (p : string) (c : bytes)
    (writes : list (string * bytes)) (files : gmap string fs_node) :
  files !! p = Some (Regular c) ->
  Forall (fun pw => fst pw = p -> snd pw = c) writes ->
  write_all writes files !! p = Some (Regular c).
Proof.
  revert files. induction writes as [|[q d] writes IH]; intros files Hp Hw;
    [exact Hp|].
  apply Forall_cons in Hw as [Hqd Hw]. cbn [fst snd] in Hqd.
  cbn [write_all fold_left fst snd]. apply IH; [|exact Hw].
  unfold write_file. destruct (decide (q = p)) as [->|Hne].
  - rewrite Hp, (Hqd eq_refl). apply lookup_insert_eq.
  - destruct (files !! q) as [[c'|]|]; try exact Hp;
      rewrite lookup_insert_ne by exact Hne; exact Hp.
Qed.

Lemma write_all_snoc (p : string) (c : bytes) (writes : list (string * bytes))
    (files : gmap string fs_node) :
  write_all (writes ++ [(p, c)]) files = write_file p c (write_all writes files).
Proof. unfold write_all. rewrite fold_left_app. reflexivity. Qed.

Lemma write_all_keeps_openable (p : string) (writes : list (string * bytes))
    (files : gmap string fs_node) :
  files !! p <> Some Unreadable -> write_all writes files !! p <> Some Unreadable.
Proof.
  revert files. induction writes as [|[q d] writes IH]; intros files Hok;
    [exact Hok|].
  cbn [write_all fold_left]. apply IH, write_file_keeps_openable, Hok.
Qed.

Lemma lookup_write_file_eq (p : string) (c : bytes) (files : gmap string fs_node) :
  files !! p <> Some Unreadable -> write_file p c files !! p = Some (Regular c).
Proof.
  intros Hok. unfold write_file.
  destruct (files !! p) as [[c'|]|] eqn:Hl; try contradiction;
    apply lookup_insert_eq.
Qed.

(** An older write to the same path that lands later replaces what a short
    write has stored. *)
Example older_write_lands_last :
  fst (get_file sample_env Png (pixel_hash +:+ ".png")
         (drain (snd (upload sample_env Png (upload_body pixel_base64)
                        (World ∅ [(blob_path sample_env Png pixel_hash, [x00])] [])))))
  = Binary [x00] 200 "image/png".
Proof. vm_compute. reflexivity. Qed.

(** X13: The round trip, once the writes have landed in the order they were
    started.  In a running process whose writes in flight can all be
    carried out, none of them aimed at the path of the digest with other
    bytes, an upload that canonicalizes to [c] returns the digest of [c],
    and after the landing of all pending writes none is pending and the
    retrieval of the digest is answered 200 with exactly [c] and the
    content type of the server.  The path must be one that can be
    opened. *)
Theorem round_trip_after_drain :
  forall (E : env) (v : variant) (body : option json) (c : bytes) (w : world),
    canonical E v body = Some c ->
    fs w !! blob_path E v (sha256_hex c) <> Some Unreadable ->
    exited w = false ->
    Forall (fun pw => fs w !! fst pw <> Some Unreadable /\
                      (fst pw = blob_path E v (sha256_hex c) -> snd pw = c))
           (pending w) ->
    fst (upload E v body w) = JsonHash (sha256_hex c) /\
    pending (drain (snd (upload E v body w))) = [] /\
    fst (get_file E v (sha256_hex c +:+ "." +:+ extension v)
           (drain (snd (upload E v body w))))
    = Binary c 200 (contentType v).
Proof.
  intros E v body c w Hc Hok Hrun Hpend.
  destruct (upload_world E v body c w Hc) as (Hr & Hfs & Hp & Hx).
  rewrite (write_refused_false _ _ Hok), andb_false_r, orb_false_r, Hrun in Hx.
  split; [exact Hr|].
  assert (Hopen : Forall (fun pw => fs w !! fst pw <> Some Unreadable) (pending w)).
  { eapply Forall_impl; [exact Hpend|]. intros pw [H _]. exact H. }
  assert (Hsame : Forall (fun pw => fst pw = blob_path E v (sha256_hex c) -> snd pw = c)
                         (pending w)).
  { eapply Forall_impl; [exact Hpend|]. intros pw [_ H]. exact H. }
  assert (Hd : pending (drain (snd (upload E v body w))) = [] /\
               fs (drain (snd (upload E v body w))) !! blob_path E v (sha256_hex c)
               = Some (Regular c)).
  { unfold drain. rewrite lands_in_order; [| reflexivity | exact Hx |].
    - cbn [pending fs]. split; [reflexivity|]. rewrite Hfs, Hp.
      destruct (_ <? _)%Z.
      + apply write_all_keeps_blob; [|exact Hsame].
        apply lookup_write_file_eq, Hok.
      + rewrite write_all_snoc.
        apply lookup_write_file_eq, write_all_keeps_openable, Hok.
    - rewrite Hfs, Hp. destruct (_ <? _)%Z.
      + eapply Forall_impl; [exact Hopen|].
        intros pw Hpw. apply write_file_keeps_openable, Hpw.
      + apply Forall_app. split; [exact Hopen|].
        constructor; [exact Hok | constructor]. }
  destruct Hd as [Hd1 Hd2]. split; [exact Hd1|].
  rewrite (get_file_valid E v _ _ _ (digest_key_matches v c)). cbn [fst].
  unfold readFile. rewrite Hd2. reflexivity.
Qed.

Lemma round_trip_after_drain_witness :
  fst (get_file sample_env Png
         (sha256_hex (Base64.decode pixel_base64) +:+ "." +:+ extension Png)
         (drain (snd (upload sample_env Png (upload_body pixel_base64)
                        (World ∅ [("/srv/images/00.png", [x00])] [])))))
  = Binary (Base64.decode pixel_base64) 200 (contentType Png).
Proof.
  apply (round_trip_after_drain sample_env Png (upload_body pixel_base64)
           (Base64.decode pixel_base64)
           (World ∅ [("/srv/images/00.png", [x00])] [])).
  - vm_compute. reflexivity.
  - cbn [fs]. rewrite lookup_empty. discriminate.
  - reflexivity.
  - constructor; [|constructor]. cbn [fs fst snd]. split.
    + rewrite lookup_empty. discriminate.
    + intros H. vm_compute in H. discriminate H.
Defined.
